(** * SkyHarbour: the simulation core of the airport game

    A shallow embedding of [hooks/useGameEngine], [constants.ts] and
    [types.ts], and of the traffic projection of the dashboard.

    Conventions of the embedding.
    - A JavaScript [number] that holds a coordinate, a speed or an economy
      counter is a binary64 float ([PrimFloat.float]), with the IEEE
      operations of the kernel.  [Math.sqrt] and [Math.abs] are the
      primitive ones; [Math.floor], [Math.ceil], [Math.max] and [Math.min]
      are defined below from the specification of the format.
    - A [number] that counts ticks (game time, scheduled time, timers) is an
      integer of [Z]: the clock starts at 0 and only ever moves by one.
    - [Math.atan2], [Math.cos], [Math.sin], [Math.random] and [uuidv4] are
      parameters (section variables): the results below hold for every
      implementation of them.
    - A React state update [setGameState(prev => ...)] is a function from
      the previous state to the next one; what the updater reads through
      [stateRef.current] is an explicit argument [ref]. *)

From Stdlib Require Import ZArith List Floats Lia Bool Reals Lra.
From Stdlib Require Import Sorting.Permutation Sorting.Sorted.
From stdpp Require Import gmap strings pretty.

Set Default Proof Using "Type".
Set Warnings "-inexact-float".
Local Open Scope Z_scope.

(* ===================================================================== *)
(** * JavaScript numbers *)
(* ===================================================================== *)

Module JS.

(** [a < b] and [a > b] on numbers: false as soon as one side is NaN. *)
Definition lt (a b : float) : bool := (a <? b)%float.
Definition gt (a b : float) : bool := (b <? a)%float.

(** Integers as floats (round to nearest even, exact below 2^53). *)
Definition of_Z (z : Z) : float :=
  SF2Prim (binary_normalize prec emax z 0 false).

(** The integer part of a finite float, rounded towards minus infinity;
    [None] for NaN and the infinities. *)
Definition floorZ (x : float) : option Z :=
  match Prim2SF x with
  | S754_zero _ => Some 0
  | S754_finite s m e =>
      let v := if s then Z.neg m else Z.pos m in
      Some (if 0 <=? e then v * 2 ^ e else v / 2 ^ (- e))
  | S754_infinity _ | S754_nan => None
  end.

(** [Math.floor]: NaN, the infinities, the zeros and the integers are
    returned unchanged. *)
Definition Math_floor (x : float) : float :=
  match Prim2SF x with
  | S754_finite _ _ e =>
      if 0 <=? e then x
      else match floorZ x with Some z => of_Z z | None => x end
  | _ => x
  end.

(** [Math.ceil], with its negative zero on (-1, 0). *)
Definition Math_ceil (x : float) : float := (- Math_floor (- x))%float.

(** [Math.max] and [Math.min] of two numbers: NaN if either is NaN, and
    +0 is larger than -0. *)
Definition Math_max (a b : float) : float :=
  if is_nan a || is_nan b then nan
  else if (a <? b)%float then b
  else if (b <? a)%float then a
  else if get_sign a then b else a.

Definition Math_min (a b : float) : float :=
  if is_nan a || is_nan b then nan
  else if (a <? b)%float then a
  else if (b <? a)%float then b
  else if get_sign a then a else b.

(** [Math.PI]. *)
Definition Math_PI : float := 0x1.921fb54442d18p+1%float.

(** Truthiness of a [string | null] value: [null] and the empty string
    are falsy. *)
Definition truthy (o : option string) : bool :=
  match o with
  | Some s => negb (String.eqb s "")
  | None => false
  end.

(** [a !== b] on [string | null]. *)
Definition strict_ne (a b : option string) : bool :=
  match a, b with
  | Some x, Some y => negb (String.eqb x y)
  | None, None => false
  | _, _ => true
  end.

End JS.

(* ===================================================================== *)
(** * types.ts *)
(* ===================================================================== *)

Inductive PlaneStatus :=
| APPROACH | LANDING | TAXI_IN | WAITING_FOR_GATE | PARKED | TAXI_OUT
| HOLD_SHORT | TAKEOFF | DEPARTED | GO_AROUND | DIVERTED.

Definition PlaneStatus_eqb (a b : PlaneStatus) : bool :=
  match a, b with
  | APPROACH, APPROACH | LANDING, LANDING | TAXI_IN, TAXI_IN
  | WAITING_FOR_GATE, WAITING_FOR_GATE | PARKED, PARKED
  | TAXI_OUT, TAXI_OUT | HOLD_SHORT, HOLD_SHORT | TAKEOFF, TAKEOFF
  | DEPARTED, DEPARTED | GO_AROUND, GO_AROUND | DIVERTED, DIVERTED => true
  | _, _ => false
  end.

Record Position := mkPosition { px : float; py : float; heading : float }.

Inductive AircraftType := regional | narrowbody | widebody.

Inductive FlightStatus :=
| Scheduled | OnTime | Delayed | Landed | FlightDeparted | Cancelled | Diverted.

Definition FlightStatus_eqb (a b : FlightStatus) : bool :=
  match a, b with
  | Scheduled, Scheduled | OnTime, OnTime | Delayed, Delayed
  | Landed, Landed | FlightDeparted, FlightDeparted
  | Cancelled, Cancelled | Diverted, Diverted => true
  | _, _ => false
  end.

Record ScheduledFlight := mkFlight {
  f_id : string;
  f_airline : string;
  f_flightNumber : string;
  f_type : AircraftType;
  f_scheduledTime : Z;
  f_isArrival : bool;
  f_status : FlightStatus
}.

Record Plane := mkPlane {
  p_id : string;
  p_airline : string;
  p_flightNumber : string;
  p_type : AircraftType;
  p_status : PlaneStatus;
  p_position : Position;
  p_waypoints : list Position;
  p_targetGateId : option string;
  p_passengers : float;
  p_revenue : float;
  p_fuel : float;
  p_timer : Z;
  p_history : list string
}.

Inductive NodeType :=
| runway_start | runway_end | taxi_intersect | gate | hold_short.

Record Node := mkNode { n_id : string; n_x : float; n_y : float; n_type : NodeType }.

Record Economy := mkEconomy {
  balance : float;
  tourismScore : float;
  industryScore : float;
  demand : float;
  reputation : float
}.

(** The [effect] closure of an upgrade receives the new game state and
    mutates it; every closure of the catalogue touches [s.economy] only, so
    the field is a function on the economy. *)
Record TechUpgrade := mkUpgrade {
  u_id : string;
  u_name : string;
  u_description : string;
  u_cost : float;
  u_unlocked : bool;
  u_effect : Economy -> Economy
}.

Inductive LogType := info | success | warning | error | ai.

Record LogEntry := mkLog {
  l_id : string;
  l_message : string;
  l_type : LogType;
  l_timestamp : Z
}.

Inductive Weather := Sunny | Rainy | Foggy | Stormy.

Record GameState := mkGameState {
  gameTime : Z;
  schedule : list ScheduledFlight;
  planes : list Plane;
  economy : Economy;
  upgrades : list TechUpgrade;
  logs : list LogEntry;
  paused : bool;
  gameSpeed : float;
  weather : Weather;
  windDirection : float;
  windSpeed : float;
  selectedPlaneId : option string;
  aiEnabled : bool;
  gateOccupancy : gmap string (option string)
}.

(* ===================================================================== *)
(** * constants.ts *)
(* ===================================================================== *)

Definition MAP_NODES : list Node :=
  [ mkNode "rw_start_09" 500 750 runway_start;
    mkNode "rw_end_27" 1700 750 runway_end;
    mkNode "taxi_alpha_1" 500 850 hold_short;
    mkNode "taxi_exit_highspeed" 1300 750 taxi_intersect;
    mkNode "taxi_alpha_main" 1300 850 taxi_intersect;
    mkNode "gate_1" 800 950 gate;
    mkNode "gate_2" 1000 950 gate;
    mkNode "gate_3" 1200 950 gate;
    mkNode "gate_4" 1400 950 gate ]%float.

Definition INITIAL_UPGRADES : list TechUpgrade :=
  [ mkUpgrade "ils_cat2" "ILS CAT II Instrument System"
      "Allows landings in rainy weather. Essential for consistency."
      150000%float false (fun e => e);
    mkUpgrade "terminal_exp_1" "Terminal Wing A Expansion"
      "Constructs Gate 4 to handle increased daily traffic."
      1250000%float false (fun e => e);
    mkUpgrade "radar_system" "NextGen Radar Coverage"
      "Increases airspace efficiency, allowing 25% more flights."
      450000%float false
      (fun e => mkEconomy (balance e) (tourismScore e) (industryScore e)
                          (demand e + 25)%float (reputation e));
    mkUpgrade "marketing_campaign" "International Brand Campaign"
      "Attracts major international carriers (+20 Tourism)."
      250000%float false
      (fun e => mkEconomy (balance e) (tourismScore e + 20)%float
                          (industryScore e) (demand e) (reputation e)) ].

Record Airline := mkAirline { a_name : string; a_code : string; a_color : string }.

Definition AIRLINES : list Airline :=
  [ mkAirline "SkyRegional" "SKR" "#3b82f6";
    mkAirline "EcoJet" "ECO" "#10b981";
    mkAirline "RoyalAir" "RYL" "#8b5cf6";
    mkAirline "BudgetFly" "BGT" "#f59e0b";
    mkAirline "CargoLifter" "CGO" "#475569" ].

Definition INITIAL_ECONOMY : Economy :=
  mkEconomy 200000 20 30 40 80.

Definition START_YEAR : Z := 1.
Definition START_TIME_OFFSET : Z := 172800.

Record GameDate := mkGameDate {
  year : Z; monthIndex : Z; day : Z; hours : Z; minutes : Z
}.

(** [getGameDate]; the ticks are never negative, so [%] is [Z.modulo] and
    [Math.floor (a / b)] is [Z.div].  The string fields of the result are
    left out. *)
Definition getGameDate (ticks : Z) : GameDate :=
  let totalMinutes := ticks + START_TIME_OFFSET in
  let minutesInDay := 1440 in
  let minutesInMonth := 1440 * 30 in
  let minutesInYear := 1440 * 30 * 12 in
  let years := totalMinutes / minutesInYear + START_YEAR in
  let yearRemainder := totalMinutes mod minutesInYear in
  let months := yearRemainder / minutesInMonth in
  let monthRemainder := yearRemainder mod minutesInMonth in
  let days := monthRemainder / minutesInDay + 1 in
  let dayRemainder := monthRemainder mod minutesInDay in
  mkGameDate years months days (dayRemainder / 60) (dayRemainder mod 60).

(* ===================================================================== *)
(** * hooks/useGameEngine: constants and pure helpers *)
(* ===================================================================== *)

Definition SPEED_FACTOR : float := 4.
Definition GATE_PARK_DURATION : Z := 300.
Definition GATE_OCCUPANCY_WINDOW : Z := 450.

(** [upgrades.some(u => u.id === 'terminal_exp_1' && u.unlocked)] *)
Definition hasTerminalExp (ups : list TechUpgrade) : bool :=
  existsb (fun u => String.eqb (u_id u) "terminal_exp_1" && u_unlocked u) ups.

Definition totalGates (ups : list TechUpgrade) : Z :=
  if hasTerminalExp ups then 4 else 3.

(** The runway box of [isRunwayOccupied]. *)
Definition onRunway (pos : Position) : bool :=
  JS.gt (py pos) 740 && JS.lt (py pos) 760 &&
  JS.gt (px pos) 450 && JS.lt (px pos) 1800.

(** [exceptId] is always passed by the callers. *)
Definition isRunwayOccupied (planes : list Plane) (exceptId : string) : bool :=
  existsb (fun p =>
    if String.eqb (p_id p) exceptId then false
    else if PlaneStatus_eqb (p_status p) TAKEOFF
            || PlaneStatus_eqb (p_status p) LANDING then true
    else if onRunway (p_position p) then true
    else false) planes.

Definition gateList (ups : list TechUpgrade) : list string :=
  ["gate_1"; "gate_2"; "gate_3"] ++
  (if hasTerminalExp ups then ["gate_4"] else []).

(** [occupancy[g]]: a missing key reads [undefined], which is falsy like
    [null]. *)
Definition occupant (occupancy : gmap string (option string)) (g : string)
  : option string :=
  match occupancy !! g with
  | Some v => v
  | None => None
  end.

Definition getFreeGate (occupancy : gmap string (option string))
    (ups : list TechUpgrade) : option string :=
  find (fun g => negb (JS.truthy (occupant occupancy g))) (gateList ups).

(** [allPlanes.some(p => p.status === APPROACH && p.position.x > -200)] *)
Definition incomingTraffic (allPlanes : list Plane) : bool :=
  existsb (fun p => PlaneStatus_eqb (p_status p) APPROACH
                    && JS.gt (px (p_position p)) (-200)) allPlanes.

Definition findNode (id : string) : option Node :=
  find (fun n => String.eqb (n_id n) id) MAP_NODES.

(** The two waypoints that lead to a gate. *)
Definition gateWaypoints (n : Node) : list Position :=
  [ mkPosition (n_x n) 850 180; mkPosition (n_x n) (n_y n) 180 ].

Definition set_status (s : PlaneStatus) (p : Plane) : Plane :=
  mkPlane (p_id p) (p_airline p) (p_flightNumber p) (p_type p) s
    (p_position p) (p_waypoints p) (p_targetGateId p) (p_passengers p)
    (p_revenue p) (p_fuel p) (p_timer p) (p_history p).

Definition set_position (pos : Position) (p : Plane) : Plane :=
  mkPlane (p_id p) (p_airline p) (p_flightNumber p) (p_type p) (p_status p)
    pos (p_waypoints p) (p_targetGateId p) (p_passengers p)
    (p_revenue p) (p_fuel p) (p_timer p) (p_history p).

Definition set_waypoints (w : list Position) (p : Plane) : Plane :=
  mkPlane (p_id p) (p_airline p) (p_flightNumber p) (p_type p) (p_status p)
    (p_position p) w (p_targetGateId p) (p_passengers p)
    (p_revenue p) (p_fuel p) (p_timer p) (p_history p).

Definition set_targetGateId (g : option string) (p : Plane) : Plane :=
  mkPlane (p_id p) (p_airline p) (p_flightNumber p) (p_type p) (p_status p)
    (p_position p) (p_waypoints p) g (p_passengers p)
    (p_revenue p) (p_fuel p) (p_timer p) (p_history p).

Definition set_timer (t : Z) (p : Plane) : Plane :=
  mkPlane (p_id p) (p_airline p) (p_flightNumber p) (p_type p) (p_status p)
    (p_position p) (p_waypoints p) (p_targetGateId p) (p_passengers p)
    (p_revenue p) (p_fuel p) t (p_history p).

(** [history.push(msg)] *)
Definition push_history (msg : string) (p : Plane) : Plane :=
  mkPlane (p_id p) (p_airline p) (p_flightNumber p) (p_type p) (p_status p)
    (p_position p) (p_waypoints p) (p_targetGateId p) (p_passengers p)
    (p_revenue p) (p_fuel p) (p_timer p) (p_history p ++ [msg]).

(* ===================================================================== *)
(** * The aircraft state machine: [updatePlanePhysics] *)
(* ===================================================================== *)

Section Physics.

(** [Math.atan2], [Math.cos] and [Math.sin]. *)
Variable Math_atan2 : float -> float -> float.
Variables Math_cos Math_sin : float -> float.

(** [moveTowards] mutates [plane.position] and returns whether the target
    was reached; here it returns the new position with the flag. *)
Definition moveTowards (pos : Position) (tx ty speed : float)
  : Position * bool :=
  let dx := (tx - px pos)%float in
  let dy := (ty - py pos)%float in
  let distance := PrimFloat.sqrt (dx * dx + dy * dy)%float in
  if JS.lt distance speed then (mkPosition tx ty (heading pos), true)
  else
    let angle := Math_atan2 dy dx in
    (mkPosition (px pos + Math_cos angle * speed)%float
                (py pos + Math_sin angle * speed)%float
                (angle * 180 / JS.Math_PI)%float, false).

Definition baseSpeed (t : AircraftType) : float :=
  match t with
  | regional => 3
  | narrowbody => 2.5
  | widebody => 2
  end%float.

Definition goAroundWaypoints : list Position :=
  [ mkPosition 500 500 (-45); mkPosition (-500) 750 90;
    mkPosition 500 750 90; mkPosition 1500 750 90 ]%float.

(** [if (updated.status === PlaneStatus.APPROACH) ...] *)
Definition approachCheck (allPlanes : list Plane) (plane updated : Plane)
  : Plane :=
  if PlaneStatus_eqb (p_status updated) APPROACH then
    let distanceToRunway := PrimFloat.abs (px (p_position updated) - 500)%float in
    if JS.lt distanceToRunway 300 && JS.gt distanceToRunway 100 then
      if isRunwayOccupied allPlanes (p_id plane) then
        push_history "Go Around: Runway Busy"
          (set_waypoints goAroundWaypoints (set_status GO_AROUND updated))
      else updated
    else updated
  else updated.

(** [if (updated.status === PlaneStatus.HOLD_SHORT) ...]; the second
    component is the local [speed]. *)
Definition holdShortCheck (allPlanes : list Plane) (plane : Plane)
    (us : Plane * float) : Plane * float :=
  let (updated, speed) := us in
  if PlaneStatus_eqb (p_status updated) HOLD_SHORT then
    if negb (isRunwayOccupied allPlanes (p_id plane)) then
      if negb (incomingTraffic allPlanes) then
        (push_history "Cleared for Takeoff"
           (set_waypoints [mkPosition 3000 750 90]
              (set_status TAKEOFF updated)), 0%float)
      else (updated, 0%float)
    else (updated, 0%float)
  else (updated, speed).

(** [if (updated.status === PlaneStatus.WAITING_FOR_GATE) ...];
    [refUpgrades] is [stateRef.current.upgrades]. *)
Definition waitingCheck (currentOccupancy : gmap string (option string))
    (refUpgrades : list TechUpgrade) (us : Plane * float) : Plane * float :=
  let (updated, speed) := us in
  if PlaneStatus_eqb (p_status updated) WAITING_FOR_GATE then
    let freeGate := getFreeGate currentOccupancy refUpgrades in
    if JS.truthy freeGate then
      let updated := set_status TAXI_IN (set_targetGateId freeGate updated) in
      match freeGate ≫= findNode with
      | Some gateNode => (set_waypoints (gateWaypoints gateNode) updated, 0%float)
      | None => (updated, 0%float)
      end
    else (updated, 0%float)
  else (updated, speed).

(** The four status-dependent adjustments of [speed]. *)
Definition adjustSpeed (st : PlaneStatus) (speed : float) : float :=
  let speed :=
    if PlaneStatus_eqb st TAXI_IN || PlaneStatus_eqb st TAXI_OUT
    then (speed * 0.5)%float else speed in
  let speed :=
    if PlaneStatus_eqb st PARKED || PlaneStatus_eqb st WAITING_FOR_GATE
    then 0%float else speed in
  let speed :=
    if PlaneStatus_eqb st TAKEOFF then (speed * 3)%float else speed in
  if PlaneStatus_eqb st LANDING then (speed * 2.5)%float else speed.

(** [if (updated.waypoints.length > 0) ...] *)
Definition movement (moveSpeed : float) (updated : Plane) : Plane :=
  match p_waypoints updated with
  | target :: rest =>
      let (pos, reached) :=
        moveTowards (p_position updated) (px target) (py target) moveSpeed in
      let updated := set_position pos updated in
      if reached then set_waypoints rest updated else updated
  | [] => updated
  end.

(** [if (updated.waypoints.length === 0) switch (updated.status) ...].
    In the [TAXI_IN] case the source asserts that the node of the free
    gate exists ([find(...)!]); [gateList_node] below shows that it does,
    so the last branch of that case is never taken. *)
Definition transitions (currentOccupancy : gmap string (option string))
    (refUpgrades : list TechUpgrade) (updated : Plane) : Plane :=
  match p_waypoints updated with
  | _ :: _ => updated
  | [] =>
      match p_status updated with
      | APPROACH =>
          set_waypoints [mkPosition 1300 750 90] (set_status LANDING updated)
      | LANDING =>
          set_waypoints [mkPosition 1300 850 180] (set_status TAXI_IN updated)
      | TAXI_IN =>
          if JS.truthy (p_targetGateId updated) then
            if JS.gt (py (p_position updated)) 900 then
              set_timer GATE_PARK_DURATION (set_status PARKED updated)
            else updated
          else
            let freeGate := getFreeGate currentOccupancy refUpgrades in
            if JS.truthy freeGate then
              let updated := set_targetGateId freeGate updated in
              match freeGate ≫= findNode with
              | Some gateNode => set_waypoints (gateWaypoints gateNode) updated
              | None => updated
              end
            else
              push_history "Waiting for Gate"
                (set_status WAITING_FOR_GATE updated)
      | PARKED =>
          if 0 <? p_timer updated then
            set_timer (p_timer updated - 1) updated
          else
            set_waypoints
              [ mkPosition (px (p_position updated)) 850 0;
                mkPosition 500 850 0; mkPosition 500 800 0 ]
              (set_targetGateId None (set_status TAXI_OUT updated))
      | TAXI_OUT => set_timer 20 (set_status HOLD_SHORT updated)
      | TAKEOFF => set_status DEPARTED updated
      | GO_AROUND => set_status APPROACH updated
      | WAITING_FOR_GATE | HOLD_SHORT | DEPARTED | DIVERTED => updated
      end
  end.

Definition updatePlanePhysics (refUpgrades : list TechUpgrade)
    (plane : Plane) (allPlanes : list Plane)
    (currentOccupancy : gmap string (option string)) : Plane :=
  let updated := plane in
  let speed := baseSpeed (p_type plane) in
  let updated := approachCheck allPlanes plane updated in
  let (updated, speed) := holdShortCheck allPlanes plane (updated, speed) in
  let (updated, speed) :=
    waitingCheck currentOccupancy refUpgrades (updated, speed) in
  let speed := adjustSpeed (p_status updated) speed in
  let moveSpeed := (speed * SPEED_FACTOR)%float in
  let updated := movement moveSpeed updated in
  transitions currentOccupancy refUpgrades updated.

End Physics.

(* ===================================================================== *)
(** * Sources of randomness *)
(* ===================================================================== *)

(** How many times [Math.random()] and [uuidv4()] were called so far. *)
Record Entropy := mkEntropy { randomCalls : nat; uuidCalls : nat }.

(** A computation that draws from the two sources. *)
Definition Rand (A : Type) : Type := Entropy -> A * Entropy.

Definition ret {A} (a : A) : Rand A := fun e => (a, e).

Definition bind {A B} (m : Rand A) (k : A -> Rand B) : Rand B :=
  fun e => let (a, e') := m e in k a e'.

Notation "'let*' x ':=' m 'in' k" := (bind m (fun x => k))
  (at level 10, x pattern, m at level 100, k at level 200).

(* ===================================================================== *)
(** * Sorting and the sweep line *)
(* ===================================================================== *)

(** [Array.prototype.sort(cmp)]: a stable sort; [cmp a b] is negative, zero
    or positive. *)
Fixpoint insertBy {A} (cmp : A -> A -> Z) (x : A) (l : list A) : list A :=
  match l with
  | [] => [x]
  | y :: l' => if cmp x y <=? 0 then x :: y :: l' else y :: insertBy cmp x l'
  end.

Definition sortBy {A} (cmp : A -> A -> Z) (l : list A) : list A :=
  fold_right (insertBy cmp) [] l.

Record Interval := mkInterval { iv_start : Z; iv_end : Z }.

(** An event of the sweep: [{t, type}] with [type] 1 (start) or -1 (end). *)
Record Point := mkPoint { pt_t : Z; pt_type : Z }.

(** [a.t - b.t || a.type - b.type] *)
Definition comparePoints (a b : Point) : Z :=
  if pt_t a - pt_t b =? 0 then pt_type a - pt_type b else pt_t a - pt_t b.

(** [relevant.forEach(iv => { points.push(start); points.push(end) })] *)
Definition pointsOf (relevant : list Interval) : list Point :=
  flat_map (fun iv => [mkPoint (iv_start iv) 1; mkPoint (iv_end iv) (-1)])
           relevant.

(** The sweep: the pair is [(maxConcurrent, currentConcurrent)]. *)
Definition sweep (points : list Point) : Z * Z :=
  fold_left (fun '(maxConcurrent, currentConcurrent) p =>
               let currentConcurrent := currentConcurrent + pt_type p in
               (Z.max maxConcurrent currentConcurrent, currentConcurrent))
            points (0, 0).

(** The maximal concurrency around a candidate window, as the body of the
    [while] loop of [generateSchedule] computes it. *)
Definition maxConcurrency (committedIntervals : list Interval)
    (scheduledTime candidateEnd : Z) : Z :=
  let relevant :=
    List.filter (fun iv => (iv_start iv <? candidateEnd) && (scheduledTime <? iv_end iv))
           (committedIntervals ++ [mkInterval scheduledTime candidateEnd]) in
  let points := sortBy comparePoints (pointsOf relevant) in
  fst (sweep points).

(* ===================================================================== *)
(** * The scheduler: [generateSchedule] *)
(* ===================================================================== *)

(** The finite value of [Math.floor(x)] as an integer.  It is applied to
    [Math.random() * n] only, which is finite ([Math.random] returns a
    number of the interval from 0 to 1, 1 excluded). *)
Definition floorInt (x : float) : Z := default 0 (JS.floorZ x).

(** The number of iterations of [for (let i = 0; i < numFlights; i++)]:
    none when [numFlights] is NaN; for [Infinity] the loop never ends
    ([None]). *)
Definition loopCount (numFlights : float) : option nat :=
  match Prim2SF numFlights with
  | S754_nan => Some 0%nat
  | S754_infinity s => if s then Some 0%nat else None
  | _ => Some (Z.to_nat (- floorInt (- numFlights)))
  end.

Definition set_f_status (st : FlightStatus) (f : ScheduledFlight)
  : ScheduledFlight :=
  mkFlight (f_id f) (f_airline f) (f_flightNumber f) (f_type f)
           (f_scheduledTime f) (f_isArrival f) st.

(** [s.status === 'Scheduled' && s.scheduledTime > currentTime] *)
Definition isPending (currentTime : Z) (s : ScheduledFlight) : bool :=
  FlightStatus_eqb (f_status s) Scheduled && (currentTime <? f_scheduledTime s).

Definition windowOf (scheduledTime : Z) : Interval :=
  mkInterval scheduledTime (scheduledTime + GATE_OCCUPANCY_WINDOW).

Definition compareFlights (a b : ScheduledFlight) : Z :=
  f_scheduledTime a - f_scheduledTime b.

Section Scheduler.

Variable Math_sin : float -> float.
(** The result of the [n]-th call of [Math.random()] and of [uuidv4()]. *)
Variable Math_random : nat -> float.
Variable uuidv4 : nat -> string.

Definition random : Rand float :=
  fun e => (Math_random (randomCalls e),
            mkEntropy (S (randomCalls e)) (uuidCalls e)).

Definition uuid : Rand string :=
  fun e => (uuidv4 (uuidCalls e),
            mkEntropy (randomCalls e) (S (uuidCalls e))).

(** The seasonal multiplier of the live scheduler. *)
Definition seasonalityOf (monthIndex : Z) : float :=
  (1 + 0.3 * Math_sin (JS.of_Z (monthIndex - 2) * JS.Math_PI / 6))%float.

(** The aircraft category of an accepted flight; [Math.random()] is
    called only when the demand test before [&&] succeeds. *)
Definition drawType (effectiveDemand : float) : Rand AircraftType :=
  let* type1 :=
    (if JS.gt effectiveDemand 50
     then (let* r := random in
           ret (if JS.gt r 0.5 then narrowbody else regional))
     else ret regional) in
  if JS.gt effectiveDemand 80
  then (let* r := random in ret (if JS.gt r 0.8 then widebody else type1))
  else ret type1.

(** The body of [if (maxConcurrent <= totalGates)]: the new flight.  The
    index of the airline is within [AIRLINES] for every result of
    [Math.random]; the default of [nth] stands for the [undefined] that
    the source would read outside. *)
Definition newFlightAt (effectiveDemand : float) (scheduledTime : Z)
  : Rand ScheduledFlight :=
  let* r := random in
  let airline :=
    nth (Z.to_nat (floorInt (r * JS.of_Z (Z.of_nat (length AIRLINES)))))
        AIRLINES (mkAirline "" "" "") in
  let* type := drawType effectiveDemand in
  let* id := uuid in
  let* r := random in
  ret (mkFlight id (a_name airline)
         (a_code airline +:+ pretty (floorInt (r * 900) + 100))
         type scheduledTime true Scheduled).

(** The [while (attempts < 15 && !scheduled)] loop; [fuel] is
    [15 - attempts].  It returns the accepted flight, if any. *)
Fixpoint attemptLoop (fuel : nat) (currentTime : Z) (effectiveDemand : float)
    (gates : Z) (committedIntervals : list Interval)
  : Rand (option ScheduledFlight) :=
  match fuel with
  | O => ret None
  | S fuel' =>
      let* r := random in
      let scheduledTime := currentTime + floorInt (r * 360) + 60 in
      let candidateEnd := scheduledTime + GATE_OCCUPANCY_WINDOW in
      if maxConcurrency committedIntervals scheduledTime candidateEnd <=? gates
      then (let* newFlight := newFlightAt effectiveDemand scheduledTime in
            ret (Some newFlight))
      else attemptLoop fuel' currentTime effectiveDemand gates
                       committedIntervals
  end.

(** The [for] loop over the [numFlights] candidates; the state is
    [(futureFlights, committedIntervals)]. *)
Fixpoint flightLoop (n : nat) (currentTime : Z) (effectiveDemand : float)
    (gates : Z) (futureFlights : list ScheduledFlight)
    (committedIntervals : list Interval)
  : Rand (list ScheduledFlight * list Interval) :=
  match n with
  | O => ret (futureFlights, committedIntervals)
  | S n' =>
      let* res := attemptLoop 15 currentTime effectiveDemand gates
                              committedIntervals in
      match res with
      | Some newFlight =>
          flightLoop n' currentTime effectiveDemand gates
            (futureFlights ++ [newFlight])
            (committedIntervals ++ [windowOf (f_scheduledTime newFlight)])
      | None =>
          flightLoop n' currentTime effectiveDemand gates
            futureFlights committedIntervals
      end
  end.

(** The intervals of the flights that are still to come. *)
Definition committedOf (refSchedule : list ScheduledFlight) (currentTime : Z)
  : list Interval :=
  map (fun f => windowOf (f_scheduledTime f))
      (List.filter (isPending currentTime) refSchedule).

Definition effectiveDemandOf (currentTime : Z) (baseDemand : float) : float :=
  let date := getGameDate currentTime in
  let seasonality := seasonalityOf (monthIndex date) in
  JS.Math_floor (baseDemand * seasonality)%float.

Definition numFlightsOf (effectiveDemand : float) : float :=
  JS.Math_max 1 (JS.Math_ceil (effectiveDemand / 12)%float).

(** [generateSchedule]; [refSchedule] and [refUpgrades] are what it reads
    from [stateRef.current].  [None] when the [for] loop has no end. *)
Definition generateSchedule (refSchedule : list ScheduledFlight)
    (refUpgrades : list TechUpgrade) (currentTime : Z) (baseDemand : float)
    (e : Entropy) : option (list ScheduledFlight * Entropy) :=
  let effectiveDemand := effectiveDemandOf currentTime baseDemand in
  let committedIntervals := committedOf refSchedule currentTime in
  match loopCount (numFlightsOf effectiveDemand) with
  | None => None
  | Some n =>
      let (res, e') :=
        flightLoop n currentTime effectiveDemand (totalGates refUpgrades)
                   [] committedIntervals e in
      Some (sortBy compareFlights (fst res), e')
  end.

End Scheduler.

(* ===================================================================== *)
(** * The main loop *)
(* ===================================================================== *)

Definition set_balance (b : float) (e : Economy) : Economy :=
  mkEconomy b (tourismScore e) (industryScore e) (demand e) (reputation e).

Definition set_tourismScore (t : float) (e : Economy) : Economy :=
  mkEconomy (balance e) t (industryScore e) (demand e) (reputation e).

Definition set_industryScore (i : float) (e : Economy) : Economy :=
  mkEconomy (balance e) (tourismScore e) i (demand e) (reputation e).

Definition set_demand (d : float) (e : Economy) : Economy :=
  mkEconomy (balance e) (tourismScore e) (industryScore e) d (reputation e).

Definition set_reputation (r : float) (e : Economy) : Economy :=
  mkEconomy (balance e) (tourismScore e) (industryScore e) (demand e) r.

(** [[entry, ...logs].slice(0, 50)] *)
Definition pushLog (entry : LogEntry) (logs : list LogEntry) : list LogEntry :=
  take 50 (entry :: logs).

(** [s.status === 'Scheduled' && s.scheduledTime <= current.gameTime] *)
Definition isDue (now : Z) (s : ScheduledFlight) : bool :=
  FlightStatus_eqb (f_status s) Scheduled && (f_scheduledTime s <=? now).

Definition countStatus (st : PlaneStatus) (ps : list Plane) : Z :=
  Z.of_nat (length (List.filter (fun p => PlaneStatus_eqb (p_status p) st) ps)).

(** [waitingPlanes > 2 || runwayBacklog > 3] *)
Definition congested (ps : list Plane) : bool :=
  (2 <? countStatus WAITING_FOR_GATE ps) || (3 <? countStatus HOLD_SHORT ps).

(** [p.targetGateId && (p.status === TAXI_IN || PARKED || WAITING_FOR_GATE)] *)
Definition holdsGate (p : Plane) : bool :=
  JS.truthy (p_targetGateId p) &&
  (PlaneStatus_eqb (p_status p) TAXI_IN || PlaneStatus_eqb (p_status p) PARKED
   || PlaneStatus_eqb (p_status p) WAITING_FOR_GATE).

(** [occupancy[k] = v] *)
Definition assign (k : option string) (v : string)
    (occupancy : gmap string (option string)) : gmap string (option string) :=
  match k with
  | Some g => <[g := Some v]> occupancy
  | None => occupancy
  end.

(** Step 4 of the loop: every key reset to [null], then one entry per
    aircraft that holds a gate, in array order. *)
Definition rebuildOccupancy (gateOccupancy : gmap string (option string))
    (ps : list Plane) : gmap string (option string) :=
  fold_left (fun occupancy p =>
               if holdsGate p then assign (p_targetGateId p) (p_id p) occupancy
               else occupancy)
            ps ((fun _ => None) <$> gateOccupancy).

(** The gate claimed during the tick is marked at once:
    [if (updatedP.targetGateId && updatedP.targetGateId !== p.targetGateId)
       occupancy[updatedP.targetGateId] = updatedP.id]. *)
Definition claimGate (p updatedP : Plane)
    (occupancy : gmap string (option string)) : gmap string (option string) :=
  if JS.truthy (p_targetGateId updatedP)
     && JS.strict_ne (p_targetGateId updatedP) (p_targetGateId p)
  then assign (p_targetGateId updatedP) (p_id updatedP) occupancy
  else occupancy.

(** [sFlight = schedule.find(s => s.id === id); if (sFlight) sFlight.status = st] *)
Fixpoint markFirst (id : string) (st : FlightStatus)
    (sched : list ScheduledFlight) : list ScheduledFlight :=
  match sched with
  | [] => []
  | s :: rest =>
      if String.eqb (f_id s) id then set_f_status st s :: rest
      else s :: markFirst id st rest
  end.

(** What the loop body mutates besides the aircraft themselves. *)
Record Ledger := mkLedger {
  lg_schedule : list ScheduledFlight;
  lg_economy : Economy;
  lg_logs : list LogEntry;
  lg_occupancy : gmap string (option string)
}.

Section Engine.

Variable Math_atan2 : float -> float -> float.
Variables Math_cos Math_sin : float -> float.
Variable Math_random : nat -> float.
Variable uuidv4 : nat -> string.
(** [String(n)] for a number [n], as a template literal prints it. *)
Variable numberToString : float -> string.

Local Abbreviation random := (random Math_random).
Local Abbreviation uuid := (uuid uuidv4).

Definition createPlane (flight : ScheduledFlight) : Rand Plane :=
  let* r1 := random in
  let* r2 := random in
  ret (mkPlane (f_id flight) (f_airline flight) (f_flightNumber flight)
         (f_type flight) APPROACH (mkPosition (-600) 750 90)
         [mkPosition 500 750 90] None
         (JS.Math_floor (r1 * 150) + 50)%float
         (JS.Math_floor (r2 * 2000) + 500)%float
         100 0 []).

(** A log entry stamped with a fresh identifier. *)
Definition logEntry (message : string) (type : LogType) (now : Z)
  : Rand LogEntry :=
  let* id := uuid in ret (mkLog id message type now).

(** Step 1: top up the schedule.  [None] when the scheduler has no end. *)
Definition schedulerStep (ref : GameState) (now : Z) (demand0 : float)
    (sched : list ScheduledFlight) (e : Entropy)
  : option (list ScheduledFlight * Entropy) :=
  if (now mod 360 =? 0) || (Z.of_nat (length sched) <? 3) then
    match generateSchedule Math_sin Math_random uuidv4
            (schedule ref) (upgrades ref) now demand0 e with
    | None => None
    | Some (newFlights, e') =>
        let pending := List.filter (isPending now) sched in
        Some (sortBy compareFlights (pending ++ newFlights), e')
    end
  else Some (sched, e).

(** Steps 2 and 3: the body of [flightsToSpawn.forEach], run over the
    schedule in array order; the flights that are not due are skipped.
    The accumulator is [(economy, logs, newPlanes)]. *)
Fixpoint processSpawns (isCongested : bool) (now : Z)
    (sched : list ScheduledFlight)
    (acc : Economy * list LogEntry * list Plane)
  : Rand (list ScheduledFlight * (Economy * list LogEntry * list Plane)) :=
  match sched with
  | [] => ret ([], acc)
  | flight :: rest =>
      let '(eco, lgs, newPlanes) := acc in
      if isDue now flight then
        if isCongested then
          let* entry :=
            logEntry ("Flight " +:+ f_flightNumber flight
                      +:+ " diverted (Congestion).") error now in
          let eco := set_reputation (reputation eco - 2)%float eco in
          let eco := set_balance (balance eco - 500)%float eco in
          let* res := processSpawns isCongested now rest
                        (eco, pushLog entry lgs, newPlanes) in
          ret (set_f_status Diverted flight :: fst res, snd res)
        else
          let* newPlane := createPlane flight in
          let* entry :=
            logEntry (f_flightNumber flight +:+ " on approach.") info now in
          let* res := processSpawns isCongested now rest
                        (eco, pushLog entry lgs, newPlanes ++ [newPlane]) in
          ret (set_f_status OnTime flight :: fst res, snd res)
      else
        let* res := processSpawns isCongested now rest acc in
        ret (flight :: fst res, snd res)
  end.

(** The body of [allPlanes.map(p => ...)] for one aircraft [p]; [view]
    is the array [allPlanes] as it stands when [p] is processed. *)
Definition physicsStep (refUpgrades : list TechUpgrade) (now : Z)
    (view : list Plane) (p : Plane) (lg : Ledger) : Rand (Plane * Ledger) :=
  let oldStatus := p_status p in
  let updatedP :=
    updatePlanePhysics Math_atan2 Math_cos Math_sin refUpgrades p view
                       (lg_occupancy lg) in
  let occupancy := claimGate p updatedP (lg_occupancy lg) in
  let* lg1 :=
    (if PlaneStatus_eqb oldStatus PARKED
        && PlaneStatus_eqb (p_status updatedP) TAXI_OUT
     then
       let* entry :=
         logEntry ("Flight " +:+ p_flightNumber p +:+ " departed. +$"
                   +:+ numberToString (p_revenue p)) success now in
       ret (mkLedger (markFirst (p_id p) FlightDeparted (lg_schedule lg))
              (set_balance (balance (lg_economy lg) + p_revenue p)%float
                           (lg_economy lg))
              (pushLog entry (lg_logs lg)) occupancy)
     else ret (mkLedger (lg_schedule lg) (lg_economy lg) (lg_logs lg)
                        occupancy)) in
  let* lg2 :=
    (if negb (PlaneStatus_eqb oldStatus GO_AROUND)
        && PlaneStatus_eqb (p_status updatedP) GO_AROUND
     then
       let* entry :=
         logEntry (p_flightNumber p +:+ " Go Around! Runway blocked.")
                  warning now in
       ret (mkLedger (lg_schedule lg1)
              (set_reputation (reputation (lg_economy lg1) - 1)%float
                              (lg_economy lg1))
              (pushLog entry (lg_logs lg1)) (lg_occupancy lg1))
     else ret lg1) in
  ret (updatedP, lg2).

(** Step 5.  [updatePlanePhysics] copies the aircraft shallowly, so the
    position it moves is the very object of the array [allPlanes]: a
    later aircraft sees the earlier ones at their new position, with
    their old status.  (The waypoints and the history are shared in the
    same way, but no aircraft reads those of another.)  [seen] are the
    aircraft already processed, as the array now shows them; [todo] are
    those still to come. *)
Fixpoint physicsPass (refUpgrades : list TechUpgrade) (now : Z)
    (seen todo : list Plane) (lg : Ledger) : Rand (list Plane * Ledger) :=
  match todo with
  | [] => ret ([], lg)
  | p :: rest =>
      let* res := physicsStep refUpgrades now (seen ++ p :: rest) p lg in
      let (updatedP, lg') := res in
      let* res' := physicsPass refUpgrades now
                     (seen ++ [set_position (p_position updatedP) p])
                     rest lg' in
      ret (updatedP :: fst res', snd res')
  end.

(** Step 6: the organic growth of the demand, once a day. *)
Definition economyTick (now : Z) (ups : list TechUpgrade) (eco : Economy)
  : Economy :=
  if now mod 1440 =? 0 then
    let growth := 0%float in
    let growth :=
      if JS.gt (reputation eco) 60 then (growth + 0.5)%float else growth in
    let growth :=
      if JS.lt (reputation eco) 40 then (growth - 0.5)%float else growth in
    let unlockedCount :=
      JS.of_Z (Z.of_nat (length (List.filter u_unlocked ups))) in
    let growth := (growth + unlockedCount * 0.2)%float in
    set_demand (JS.Math_max 10 (JS.Math_min 200 (demand eco + growth)%float))
               eco
  else eco.

(** Steps 2 to 6, from the state [current] whose clock and schedule are
    already updated. *)
Definition runTick (ref current : GameState) (e : Entropy)
  : GameState * Entropy :=
  let now := gameTime current in
  let isCongested := congested (planes current) in
  let '(sched, (eco, lgs, newPlanes), e1) :=
    processSpawns isCongested now (schedule current)
                  (economy current, logs current, []) e in
  let occupancy := rebuildOccupancy (gateOccupancy current) (planes current) in
  let allPlanes := planes current ++ newPlanes in
  let '(mapped, lg, e2) :=
    physicsPass (upgrades ref) now [] allPlanes
                (mkLedger sched eco lgs occupancy) e1 in
  let updatedPlanes :=
    List.filter (fun p => negb (PlaneStatus_eqb (p_status p) DEPARTED)) mapped in
  (mkGameState now (lg_schedule lg) updatedPlanes
     (economyTick now (upgrades current) (lg_economy lg))
     (upgrades current) (lg_logs lg) (paused current) (gameSpeed current)
     (weather current) (windDirection current) (windSpeed current)
     (selectedPlaneId current) (aiEnabled current) (lg_occupancy lg), e2).

(** The updater of the interval: one tick from [prev].  [None] when the
    scheduler does not return. *)
Definition tick (ref prev : GameState) (e : Entropy)
  : option (GameState * Entropy) :=
  let now := gameTime prev + 1 in
  match schedulerStep ref now (demand (economy prev)) (schedule prev) e with
  | None => None
  | Some (sched, e') =>
      Some (runTick ref
              (mkGameState now sched (planes prev) (economy prev)
                 (upgrades prev) (logs prev) (paused prev) (gameSpeed prev)
                 (weather prev) (windDirection prev) (windSpeed prev)
                 (selectedPlaneId prev) (aiEnabled prev) (gateOccupancy prev))
              e')
  end.

(** The callback of [setInterval]: nothing happens while the game that
    [stateRef] shows is paused. *)
Definition onInterval (ref prev : GameState) (e : Entropy)
  : option (GameState * Entropy) :=
  if paused ref then Some (prev, e) else tick ref prev e.

End Engine.

(* ===================================================================== *)
(** * The commands of the player *)
(* ===================================================================== *)

Definition set_logs (l : list LogEntry) (s : GameState) : GameState :=
  mkGameState (gameTime s) (schedule s) (planes s) (economy s) (upgrades s) l
    (paused s) (gameSpeed s) (weather s) (windDirection s) (windSpeed s)
    (selectedPlaneId s) (aiEnabled s) (gateOccupancy s).

Definition set_economy (e : Economy) (s : GameState) : GameState :=
  mkGameState (gameTime s) (schedule s) (planes s) e (upgrades s) (logs s)
    (paused s) (gameSpeed s) (weather s) (windDirection s) (windSpeed s)
    (selectedPlaneId s) (aiEnabled s) (gateOccupancy s).

Definition set_upgrades (u : list TechUpgrade) (s : GameState) : GameState :=
  mkGameState (gameTime s) (schedule s) (planes s) (economy s) u (logs s)
    (paused s) (gameSpeed s) (weather s) (windDirection s) (windSpeed s)
    (selectedPlaneId s) (aiEnabled s) (gateOccupancy s).

Definition set_u_unlocked (b : bool) (u : TechUpgrade) : TechUpgrade :=
  mkUpgrade (u_id u) (u_name u) (u_description u) (u_cost u) b (u_effect u).

Inductive Campaign := tourism | industry.

Definition Campaign_name (c : Campaign) : string :=
  match c with tourism => "tourism" | industry => "industry" end.

(** The updater of [purchaseUpgrade]: the next state, and the upgrade that
    was bought, if any. *)
Definition purchaseUpdater (id : string) (prev : GameState)
  : GameState * option TechUpgrade :=
  match find (fun u => String.eqb (u_id u) id) (upgrades prev) with
  | None => (prev, None)
  | Some upgrade =>
      if u_unlocked upgrade || JS.lt (balance (economy prev)) (u_cost upgrade)
      then (prev, None)
      else
        let newUpgrades :=
          map (fun u => if String.eqb (u_id u) id then set_u_unlocked true u
                        else u) (upgrades prev) in
        let newState :=
          set_upgrades newUpgrades
            (set_economy
               (set_balance (balance (economy prev) - u_cost upgrade)%float
                            (economy prev)) prev) in
        (set_economy (u_effect upgrade (economy newState)) newState,
         Some upgrade)
  end.

(** The updater of [influenceEconomy], with whether the campaign ran. *)
Definition influenceUpdater (type : Campaign) (prev : GameState)
  : GameState * bool :=
  let cost := 25000%float in
  if JS.lt (balance (economy prev)) cost then (prev, false)
  else
    let eco := economy prev in
    let eco := set_balance (balance eco - cost)%float eco in
    let eco :=
      match type with
      | tourism => set_tourismScore (tourismScore eco + 5)%float eco
      | industry => eco
      end in
    let eco :=
      match type with
      | industry => set_industryScore (industryScore eco + 5)%float eco
      | tourism => eco
      end in
    let eco := set_demand (demand eco + 5)%float eco in
    (set_economy eco prev, true).

Section Commands.

Variable uuidv4 : nat -> string.

(** [addLog]: its own state update, applied after the updater that
    called it. *)
Definition addLog (message : string) (type : LogType) (s : GameState)
  : Rand GameState :=
  let* id := uuid uuidv4 in
  ret (set_logs (take 50 (mkLog id message type (gameTime s) :: logs s)) s).

Definition purchaseUpgrade (id : string) (prev : GameState) : Rand GameState :=
  match purchaseUpdater id prev with
  | (newState, Some upgrade) =>
      addLog ("Purchased " +:+ u_name upgrade) success newState
  | (newState, None) => ret newState
  end.

Definition influenceEconomy (type : Campaign) (prev : GameState)
  : Rand GameState :=
  match influenceUpdater type prev with
  | (newState, true) =>
      addLog ("Ran " +:+ Campaign_name type +:+ " campaign. Demand increased.")
             info newState
  | (newState, false) =>
      addLog "Not enough funds for campaign!" warning newState
  end.

End Commands.

(** [upgrades.find(u => u.id === id)] and
    [upgrades.map(u => u.id === id ? { ...u, unlocked: true } : u)]. *)
Definition findUpgrade (id : string) (ups : list TechUpgrade)
  : option TechUpgrade :=
  find (fun u => String.eqb (u_id u) id) ups.

Definition unlockAll (id : string) (ups : list TechUpgrade)
  : list TechUpgrade :=
  map (fun u => if String.eqb (u_id u) id then set_u_unlocked true u else u)
      ups.

(** The flights that are due at [now], and what admission makes of a
    flight of the schedule. *)
Definition dueFlights (now : Z) (sched : list ScheduledFlight)
  : list ScheduledFlight :=
  List.filter (isDue now) sched.

Definition admitFlight (isCongested : bool) (now : Z) (f : ScheduledFlight)
  : ScheduledFlight :=
  if isDue now f
  then set_f_status (if isCongested then Diverted else OnTime) f
  else f.

(* ===================================================================== *)
(** * The initial state and sample data *)
(* ===================================================================== *)

(** The initial value of [useState]; [aiEnabled] is [!!process.env.API_KEY]. *)
Definition initialState (apiKey : bool) : GameState :=
  mkGameState 0 [] [] INITIAL_ECONOMY INITIAL_UPGRADES [] false 1%float Sunny
    90%float 10%float None apiKey
    (<["gate_1" := None]> (<["gate_2" := None]> (<["gate_3" := None]> ∅))).

(** Sample sources of randomness: every draw is one half, and the [n]-th
    identifier is the letter u followed by [n]. *)
Definition sampleRandom (n : nat) : float := 0.5%float.
Definition sampleUuid (n : nat) : string := "u" +:+ pretty n.
Definition sampleAtan2 (y x : float) : float := 0%float.
Definition sampleCos (x : float) : float := 1%float.
Definition sampleSin (x : float) : float := 0%float.
Definition sampleShow (x : float) : string := "?".
Definition noEntropy : Entropy := mkEntropy 0 0.

(** A rich airport: the initial state with a balance of 500000. *)
Definition richState : GameState :=
  set_economy (set_balance 500000%float INITIAL_ECONOMY) (initialState false).

(** Sample aircraft and flights. *)
Definition parkedAt (id g : string) (x : float) : Plane :=
  mkPlane id "SkyRegional" ("SKR" +:+ id) regional PARKED
    (mkPosition x 950 180) [] (Some g) 100 1500 100 120 [].

Definition waitingPlane (id : string) : Plane :=
  mkPlane id "EcoJet" ("ECO" +:+ id) regional WAITING_FOR_GATE
    (mkPosition 1300 850 180) [] None 100 1500 100 0 ["Waiting for Gate"].

Definition flightAt (id : string) (t : Z) : ScheduledFlight :=
  mkFlight id "RoyalAir" ("RYL" +:+ id) regional t true Scheduled.


(** The same airport with a single aircraft waiting: not congested. *)
Definition calmState : GameState :=
  mkGameState 100
    [flightAt "f1" 101; flightAt "f2" 500; flightAt "f3" 600]
    [parkedAt "a" "gate_1" 800; parkedAt "b" "gate_2" 1000;
     parkedAt "c" "gate_3" 1200; waitingPlane "d"]
    INITIAL_ECONOMY INITIAL_UPGRADES [] false
    1%float Sunny 90%float 10%float None false
    (<["gate_1" := Some "a"]>
       (<["gate_2" := Some "b"]> (<["gate_3" := Some "c"]> ∅))).

(** One tick with the sample sources. *)
Definition sampleTick (ref prev : GameState) (e : Entropy)
  : option (GameState * Entropy) :=
  tick sampleAtan2 sampleCos sampleSin sampleRandom sampleUuid sampleShow
       ref prev e.

(** The two conditions that keep an aircraft at the holding point, in the
    words of [isRunwayOccupied] and of the test on incoming traffic. *)
Definition runwayBlocked (all : list Plane) (id : string) : Prop :=
  exists q, In q all /\ p_id q <> id /\
    (p_status q = TAKEOFF \/ p_status q = LANDING \/
     onRunway (p_position q) = true).

Definition approachConflict (all : list Plane) : Prop :=
  exists q, In q all /\ p_status q = APPROACH /\
    JS.gt (px (p_position q)) (-200) = true.

(** The instants of an interval: from its start, up to its end excluded,
    so that an interval that ends when another begins does not meet it. *)
Definition covers (iv : Interval) (t : Z) : bool :=
  (iv_start iv <=? t) && (t <? iv_end iv).

(** How many intervals hold a gate at the instant [t]. *)
Definition overlapAt (ivs : list Interval) (t : Z) : Z :=
  Z.of_nat (length (List.filter (fun iv => covers iv t) ivs)).

Definition withinCapacity (gates : Z) (ivs : list Interval) : Prop :=
  forall t, overlapAt ivs t <= gates.

Definition proper (iv : Interval) : Prop := iv_start iv < iv_end iv.

(** The sum of the events up to the instant [t]. *)
Fixpoint eventsUpTo (t : Z) (points : list Point) : Z :=
  match points with
  | [] => 0
  | p :: rest => (if pt_t p <=? t then pt_type p else 0) + eventsUpTo t rest
  end.

(** The sweep from an arbitrary state of its two counters. *)
Definition sweepFrom (st : Z * Z) (points : list Point) : Z * Z :=
  fold_left (fun '(maxConcurrent, currentConcurrent) p =>
               let currentConcurrent := currentConcurrent + pt_type p in
               (Z.max maxConcurrent currentConcurrent, currentConcurrent))
            points st.

(** A comparator that follows a key sorts by that key. *)
Definition follows {A} (key : A -> Z) (cmp : A -> A -> Z) : Prop :=
  forall a b, (cmp a b <= 0 -> key a <= key b) /\
              (0 < cmp a b -> key b <= key a).

(** The gate windows of a list of flights. *)
Definition windowsOf (flights : list ScheduledFlight) : list Interval :=
  map (fun f => windowOf (f_scheduledTime f)) flights.


(** The formula of both multipliers, read over the real numbers. *)
Definition seasonalityR (m : Z) : R :=
  (1 + 0.3 * sin ((IZR m - 2) * PI / 6))%R.

(** The declared bounds of the economy counters. *)
Definition inBounds (e : Economy) : bool :=
  (10 <=? demand e)%float && (demand e <=? 200)%float &&
  (0 <=? reputation e)%float && (reputation e <=? 100)%float.

(** More sample aircraft, occupancies and states. *)
Definition holdingPlane (id : string) : Plane :=
  mkPlane id "EcoJet" ("ECO" +:+ id) regional HOLD_SHORT
    (mkPosition 500 800 0) [] None 100 1500 100 20 ["h"].

Definition landingPlane (id : string) : Plane :=
  mkPlane id "EcoJet" ("ECO" +:+ id) regional LANDING
    (mkPosition 900 750 90) [mkPosition 1300 750 90] None 100 1500 100 0 [].

Definition departingPlane (id : string) : Plane :=
  mkPlane id "EcoJet" ("ECO" +:+ id) regional TAKEOFF
    (mkPosition 2990 750 90) [mkPosition 3000 750 90] None 100 1500 100 20 [].

Definition fullOccupancy : gmap string (option string) :=
  <["gate_1" := Some "a"]> (<["gate_2" := Some "b"]> (<["gate_3" := Some "c"]> ∅)).

Definition oneFreeOccupancy : gmap string (option string) :=
  <["gate_1" := Some "a"]> (<["gate_2" := None]> (<["gate_3" := Some "c"]> ∅)).

Definition departingState : GameState :=
  mkGameState 100
    [flightAt "f1" 700; flightAt "f2" 500; flightAt "f3" 600]
    [departingPlane "z"]
    INITIAL_ECONOMY INITIAL_UPGRADES [] false
    1%float Sunny 90%float 10%float None false
    (<["gate_1" := None]> (<["gate_2" := None]> (<["gate_3" := None]> ∅))).

Definition samplePhysics :=
  updatePlanePhysics sampleAtan2 sampleCos sampleSin INITIAL_UPGRADES.

(** The gate that an aircraft references: its target gate, when truthy. *)
Definition heldGate (p : Plane) : list string :=
  match p_targetGateId p with
  | Some g => if String.eqb g "" then [] else [g]
  | None => []
  end.

Definition heldGates (ps : list Plane) : list string := flat_map heldGate ps.

(** An aircraft that references a gate is counted by the snapshot. *)
Definition gateHolderOk (p : Plane) : Prop :=
  JS.truthy (p_targetGateId p) = true -> holdsGate p = true.

(** What a step of one aircraft does to its gate: keep it, drop it, or
    claim the free gate. *)
Definition GateStep (occ : gmap string (option string))
    (ups : list TechUpgrade) (p r : Plane) : Prop :=
  p_id r = p_id p /\
  (gateHolderOk p -> gateHolderOk r) /\
  (p_targetGateId r = p_targetGateId p \/
   JS.truthy (p_targetGateId r) = false \/
   exists h, getFreeGate occ ups = Some h /\ p_targetGateId r = Some h).

(** Every aircraft of [L] that references a gate is the occupant of that
    gate in [occ]. *)
Definition Bound (occ : gmap string (option string)) (L : list Plane) : Prop :=
  forall p g, p ∈ L -> g ∈ heldGate p -> occupant occ g = Some (p_id p).

(** The invariant of the pass over the aircraft. *)
Definition PassInv (occ : gmap string (option string)) (L : list Plane) : Prop :=
  NoDup (heldGates L) /\ Forall gateHolderOk L /\
  Forall (fun p => p_id p <> "") L /\ Bound occ L.

(** The invariant of the game state: no gate is referenced twice, every
    aircraft that references a gate is in a status that the snapshot
    counts, and no identifier is empty. *)
Definition GateInvariant (s : GameState) : Prop :=
  NoDup (heldGates (planes s)) /\ Forall gateHolderOk (planes s) /\
  Forall (fun p => p_id p <> "") (planes s) /\
  Forall (fun f => f_id f <> "") (schedule s).

(** No two aircraft, at two places of the list, reference the same gate. *)
Definition distinctGates (ps : list Plane) : Prop :=
  forall (i j : nat) p q,
    i <> j -> ps !! i = Some p -> ps !! j = Some q ->
    JS.truthy (p_targetGateId p) = true ->
    p_targetGateId p <> p_targetGateId q.

(** The speed of a taxiing aircraft, and the aircraft that ask for a gate
    in this tick: in TAXI_IN, without a target gate, and at the end of
    their waypoints once they have moved. *)
Definition taxiSpeed (p : Plane) : float :=
  (adjustSpeed TAXI_IN (baseSpeed (p_type p)) * SPEED_FACTOR)%float.

Definition seeksGate (Math_atan2 : float -> float -> float)
    (Math_cos Math_sin : float -> float) (p : Plane) : Prop :=
  p_status p = TAXI_IN /\ JS.truthy (p_targetGateId p) = false /\
  p_waypoints (movement Math_atan2 Math_cos Math_sin (taxiSpeed p) p) = [].

(** The aircraft that the admission creates. *)
Definition freshPlane (p : Plane) : Prop :=
  heldGate p = [] /\ p_id p <> "" /\ gateHolderOk p.

(** An aircraft that taxies in without a gate, one unit short of the apron
    entry: it asks for a gate in this tick. *)
Definition seekerPlane (id : string) : Plane :=
  mkPlane id "BudgetFly" ("BGT" +:+ id) regional TAXI_IN
    (mkPosition 1300 849 180) [mkPosition 1300 850 180] None 100 1500 100 0 [].

Definition contendedState : GameState :=
  mkGameState 100
    [flightAt "f1" 700; flightAt "f2" 500; flightAt "f3" 600]
    [parkedAt "a" "gate_1" 800; seekerPlane "s1"; parkedAt "c" "gate_3" 1200;
     seekerPlane "s2"]
    INITIAL_ECONOMY INITIAL_UPGRADES [] false
    1%float Sunny 90%float 10%float None false
    (<["gate_1" := Some "a"]>
       (<["gate_2" := None]> (<["gate_3" := Some "c"]> ∅))).

(** The pass over the aircraft with the sample sources. *)
Definition samplePass :=
  physicsPass sampleAtan2 sampleCos sampleSin sampleUuid sampleShow.

(** [s.status === 'Scheduled'] *)
Definition isScheduled (f : ScheduledFlight) : bool :=
  FlightStatus_eqb (f_status f) Scheduled.

(** The gate windows of the flights of a schedule that are still
    Scheduled. *)
Definition scheduledWindows (sched : list ScheduledFlight) : list Interval :=
  windowsOf (List.filter isScheduled sched).

(** The invariant of the schedule: its Scheduled flights fit the gates. *)
Definition ScheduleInvariant (s : GameState) : Prop :=
  withinCapacity (totalGates (upgrades s)) (scheduledWindows (schedule s)).

(** [l'] is [l] with some flights moved away from Scheduled. *)
Definition demoted (l l' : list ScheduledFlight) : Prop :=
  Forall2 (fun f f' => f_scheduledTime f' = f_scheduledTime f /\
                       (f_status f' = Scheduled -> f_status f = Scheduled))
          l l'.

(** The three gates taken, the dwell of the aircraft at gate 1 over, and
    one aircraft waiting for a gate. *)
Definition leavingState : GameState :=
  mkGameState 100
    [flightAt "f1" 700; flightAt "f2" 500; flightAt "f3" 600]
    [set_timer 0 (parkedAt "a" "gate_1" 800); parkedAt "b" "gate_2" 1000;
     parkedAt "c" "gate_3" 1200; waitingPlane "d"]
    INITIAL_ECONOMY INITIAL_UPGRADES [] false
    1%float Sunny 90%float 10%float None false
    (<["gate_1" := Some "a"]>
       (<["gate_2" := Some "b"]> (<["gate_3" := Some "c"]> ∅))).

(** Two ticks in a row, [stateRef] being up to date at each. *)
Definition twoTicks (s : GameState) (e : Entropy) : option (GameState * GameState) :=
  match sampleTick s s e with
  | Some (s1, e1) =>
      match sampleTick s1 s1 e1 with
      | Some (s2, _) => Some (s1, s2)
      | None => None
      end
  | None => None
  end.

(* ===================================================================== *)
(** * Facts about binary64 comparisons *)
(* ===================================================================== *)

Section FloatFacts.

Local Open Scope float_scope.

(** A square root is never below zero (it may be NaN). *)
Lemma sqrt_not_negative (x : float) : (PrimFloat.sqrt x <? 0) = false.
Proof.
  rewrite ltb_spec, sqrt_spec.
  change (Prim2SF 0) with (S754_zero false).
  unfold SF64sqrt, SFsqrt.
  destruct (Prim2SF x) as [[] | [] | | [] m e]; try reflexivity.
  destruct (SFsqrt_core_binary prec emax (Z.pos m) e) as [[mz ez] lz].
  unfold binary_round_aux.
  destruct (shr_fexp prec emax mz ez lz) as [mrs' e'].
  destruct (shr_fexp prec emax _ e' loc_Exact) as [mrs'' e''].
  destruct (shr_m mrs''); [reflexivity | | reflexivity].
  destruct (Z.leb e'' _); reflexivity.
Qed.

Lemma compare_cont_flip (p q : positive) :
  Pos.compare_cont Eq q p = CompOpp (Pos.compare_cont Eq p q).
Proof. now rewrite Pos.compare_cont_antisym. Qed.

Lemma SFcompare_antisym (a b : spec_float) :
  SFcompare b a = option_map CompOpp (SFcompare a b).
Proof.
  destruct a as [[] | [] | | [] ma ea], b as [[] | [] | | [] mb eb];
    simpl; try reflexivity;
    rewrite (Z.compare_antisym ea eb); destruct (ea ?= eb)%Z; simpl;
    rewrite ?(compare_cont_flip ma mb), ?CompOpp_involutive; reflexivity.
Qed.

Lemma SFcompare_Lt_flip (a b : spec_float) :
  SFcompare a b = Some Lt -> SFcompare b a = Some Gt.
Proof. intros H. now rewrite SFcompare_antisym, H. Qed.

(** [a < b] excludes [b < a] and [b <= a]. *)
Lemma ltb_asym (a b : float) : (a <? b) = true -> (b <? a) = false.
Proof.
  rewrite !ltb_spec. unfold SFltb.
  destruct (SFcompare (Prim2SF a) (Prim2SF b)) as [[]|] eqn:E; try discriminate.
  intros _. now rewrite (SFcompare_Lt_flip _ _ E).
Qed.

Lemma ltb_not_leb (a b : float) : (a <? b) = true -> (b <=? a) = false.
Proof.
  rewrite ltb_spec, leb_spec. unfold SFltb, SFleb.
  destruct (SFcompare (Prim2SF a) (Prim2SF b)) as [[]|] eqn:E; try discriminate.
  intros _. now rewrite (SFcompare_Lt_flip _ _ E).
Qed.

Lemma leb_not_ltb (a b : float) : (a <=? b) = true -> (b <? a) = false.
Proof.
  intros H. destruct (b <? a) eqn:E; [| reflexivity].
  apply ltb_not_leb in E. congruence.
Qed.






End FloatFacts.

(* ===================================================================== *)
(** * Upgrades and campaigns *)
(* ===================================================================== *)

Section CommandFacts.

Variable uuidv4 : nat -> string.

Lemma findUpgrade_unlockAll id ups u :
  findUpgrade id ups = Some u ->
  findUpgrade id (unlockAll id ups) = Some (set_u_unlocked true u).
Proof.
  unfold findUpgrade, unlockAll.
  induction ups as [| v ups IH]; simpl; [discriminate |].
  destruct (String.eqb (u_id v) id) eqn:E; simpl.
  - intros [= ->]. now rewrite E.
  - rewrite E. exact IH.
Qed.

Lemma purchaseUpdater_refused id prev u :
  findUpgrade id (upgrades prev) = Some u ->
  u_unlocked u = true \/ JS.lt (balance (economy prev)) (u_cost u) = true ->
  purchaseUpdater id prev = (prev, None).
Proof.
  unfold findUpgrade, purchaseUpdater. intros -> [H | H]; rewrite H;
    [reflexivity | now rewrite orb_true_r].
Qed.

Lemma purchaseUpdater_accepted id prev u :
  findUpgrade id (upgrades prev) = Some u ->
  u_unlocked u = false -> JS.lt (balance (economy prev)) (u_cost u) = false ->
  purchaseUpdater id prev =
    (set_economy
       (u_effect u (set_balance (balance (economy prev) - u_cost u)%float
                                (economy prev)))
       (set_upgrades (unlockAll id (upgrades prev)) prev), Some u).
Proof.
  unfold findUpgrade, purchaseUpdater. intros -> -> ->. reflexivity.
Qed.

(** C7: [purchaseUpgrade id] on a state where [id] names the upgrade [u].
    If [u] is unlocked already, or the balance is below its cost, the
    whole state is returned as it was (and no log is written).
    Otherwise the cost is subtracted from the balance, the effect of [u]
    is applied once to the economy so debited, every upgrade named [id]
    is flagged unlocked, no other field but the log changes, and a
    second purchase of [id] returns the state it is given. *)
Theorem purchaseUpgrade_once (id : string) (prev : GameState)
    (u : TechUpgrade) (e : Entropy) :
  findUpgrade id (upgrades prev) = Some u ->
  (u_unlocked u = true \/ JS.lt (balance (economy prev)) (u_cost u) = true ->
   purchaseUpgrade uuidv4 id prev e = (prev, e)) /\
  (u_unlocked u = false ->
   JS.lt (balance (economy prev)) (u_cost u) = false ->
   let next := fst (purchaseUpgrade uuidv4 id prev e) in
   economy next =
     u_effect u (set_balance (balance (economy prev) - u_cost u)%float
                             (economy prev)) /\
   upgrades next = unlockAll id (upgrades prev) /\
   findUpgrade id (upgrades next) = Some (set_u_unlocked true u) /\
   (gameTime next, schedule next, planes next, gateOccupancy next) =
     (gameTime prev, schedule prev, planes prev, gateOccupancy prev) /\
   (paused next, gameSpeed next, weather next, windDirection next,
    windSpeed next, selectedPlaneId next, aiEnabled next) =
     (paused prev, gameSpeed prev, weather prev, windDirection prev,
      windSpeed prev, selectedPlaneId prev, aiEnabled prev) /\
   forall e', purchaseUpgrade uuidv4 id next e' = (next, e')).
Proof.
  intros Hfind. split.
  - intros H. unfold purchaseUpgrade.
    now rewrite (purchaseUpdater_refused id prev u Hfind H).
  - intros Hlocked Hfunds. unfold purchaseUpgrade.
    rewrite (purchaseUpdater_accepted id prev u Hfind Hlocked Hfunds).
    cbn. repeat split.
    + now apply findUpgrade_unlockAll.
    + intros e'.
      match goal with |- context [purchaseUpdater id ?s] =>
        rewrite (purchaseUpdater_refused id s (set_u_unlocked true u))
      end; [reflexivity | | left; reflexivity].
      cbn. now apply findUpgrade_unlockAll.
Qed.

(** An unknown upgrade is refused as well. *)
Lemma purchaseUpgrade_unknown id prev e :
  findUpgrade id (upgrades prev) = None ->
  purchaseUpgrade uuidv4 id prev e = (prev, e).
Proof.
  unfold findUpgrade, purchaseUpgrade, purchaseUpdater. now intros ->.
Qed.

(** C10: [influenceEconomy].  Below 25000 the state keeps every field but
    the log, which gains one entry; from 25000 on the balance loses
    25000, the chosen score gains 5 and the demand gains 5, the
    reputation and the other score being kept. *)
Theorem influenceEconomy_campaign (type : Campaign) (prev : GameState)
    (e : Entropy) :
  let next := fst (influenceEconomy uuidv4 type prev e) in
  (JS.lt (balance (economy prev)) 25000 = true ->
   next = set_logs (take 50 (mkLog (uuidv4 (uuidCalls e))
                               "Not enough funds for campaign!" warning
                               (gameTime prev) :: logs prev)) prev) /\
  ((25000 <=? balance (economy prev))%float = true ->
   balance (economy next) = (balance (economy prev) - 25000)%float /\
   tourismScore (economy next) =
     match type with
     | tourism => (tourismScore (economy prev) + 5)%float
     | industry => tourismScore (economy prev)
     end /\
   industryScore (economy next) =
     match type with
     | industry => (industryScore (economy prev) + 5)%float
     | tourism => industryScore (economy prev)
     end /\
   demand (economy next) = (demand (economy prev) + 5)%float /\
   reputation (economy next) = reputation (economy prev)).
Proof.
  unfold influenceEconomy, influenceUpdater. split.
  - intros ->. reflexivity.
  - intros H. apply leb_not_ltb in H. unfold JS.lt. rewrite H.
    destruct type; cbn; repeat split.
Qed.

End CommandFacts.

Lemma purchaseUpgrade_once_witness :
  fst (purchaseUpgrade sampleUuid "radar_system" richState noEntropy)
    <> richState /\
  balance (economy (fst (purchaseUpgrade sampleUuid "radar_system" richState
                           noEntropy))) = 50000%float /\
  demand (economy (fst (purchaseUpgrade sampleUuid "radar_system" richState
                          noEntropy))) = 65%float /\
  purchaseUpgrade sampleUuid "terminal_exp_1" richState noEntropy
    = (richState, noEntropy).
Proof.
  pose proof (purchaseUpgrade_once sampleUuid "radar_system" richState
                (nth 2 INITIAL_UPGRADES (mkUpgrade "" "" "" 0 false (fun e => e)))
                noEntropy eq_refl) as [_ H].
  specialize (H eq_refl eq_refl). cbv zeta in H.
  destruct H as (Heco & Hups & _).
  pose proof (purchaseUpgrade_once sampleUuid "terminal_exp_1" richState
                (nth 1 INITIAL_UPGRADES (mkUpgrade "" "" "" 0 false (fun e => e)))
                noEntropy eq_refl) as [H' _].
  split; [| split; [| split]].
  - intros E. rewrite E in Hups. discriminate Hups.
  - now rewrite Heco.
  - now rewrite Heco.
  - apply H'. right. reflexivity.
Defined.

Lemma influenceEconomy_campaign_witness :
  balance (economy (fst (influenceEconomy sampleUuid tourism richState
                           noEntropy))) = 475000%float /\
  economy (fst (influenceEconomy sampleUuid industry
                  (set_economy (set_balance 24999%float INITIAL_ECONOMY)
                               richState) noEntropy))
    = set_balance 24999%float INITIAL_ECONOMY.
Proof.
  split.
  - destruct (influenceEconomy_campaign sampleUuid tourism richState noEntropy)
      as [_ H].
    destruct (H eq_refl) as (Hb & _). now rewrite Hb.
  - destruct (influenceEconomy_campaign sampleUuid industry
                (set_economy (set_balance 24999%float INITIAL_ECONOMY) richState)
                noEntropy) as [H _].
    now rewrite (H eq_refl).
Defined.

(* ===================================================================== *)
(** * Admission of the arriving flights, and the departed aircraft *)
(* ===================================================================== *)

Section DriverFacts.

Variable Math_atan2 : float -> float -> float.
Variables Math_cos Math_sin : float -> float.
Variable Math_random : nat -> float.
Variable uuidv4 : nat -> string.
Variable numberToString : float -> string.

Lemma processSpawns_spec isCongested now sched eco lgs nps e :
  let '(sched', (eco', lgs', nps'), e') :=
    processSpawns Math_random uuidv4 isCongested now sched (eco, lgs, nps) e in
  sched' = map (admitFlight isCongested now) sched /\
  (isCongested = true ->
     nps' = nps /\
     balance eco' = fold_left (fun b _ => (b - 500)%float)
                      (dueFlights now sched) (balance eco) /\
     reputation eco' = fold_left (fun r _ => (r - 2)%float)
                         (dueFlights now sched) (reputation eco) /\
     (tourismScore eco', industryScore eco', demand eco')
       = (tourismScore eco, industryScore eco, demand eco)) /\
  (isCongested = false ->
     eco' = eco /\
     map p_id nps' = map p_id nps ++ map f_id (dueFlights now sched) /\
     length nps' = (length nps + length (dueFlights now sched))%nat).
Proof.
  revert eco lgs nps e.
  induction sched as [| flight rest IH]; intros eco lgs nps e.
  - cbn. repeat split; rewrite ?app_nil_r; auto.
  - cbn [processSpawns]. unfold admitFlight at 1, dueFlights. cbn [map List.filter].
    fold (dueFlights now rest).
    destruct (isDue now flight) eqn:Hdue.
    + destruct isCongested.
      * unfold bind, ret, logEntry, uuid. cbn.
        match goal with |- context [processSpawns _ _ _ _ _ ?acc ?e0] =>
          match acc with (?a, ?b, ?c) => specialize (IH a b c e0) end end.
        destruct (processSpawns _ _ _ _ _ _ _) as [[s' [[eco' lgs'] nps']] e'].
        cbn. destruct IH as (-> & H1 & _).
        destruct (H1 eq_refl) as (-> & Hb & Hr & Ho).
        split; [reflexivity |]. split; [| discriminate].
        intros _. cbn in *. auto.
      * unfold bind, ret, logEntry, uuid, createPlane, random. cbn.
        match goal with |- context [processSpawns _ _ _ _ _ ?acc ?e0] =>
          match acc with (?a, ?b, ?c) => specialize (IH a b c e0) end end.
        destruct (processSpawns _ _ _ _ _ _ _) as [[s' [[eco' lgs'] nps']] e'].
        cbn. destruct IH as (-> & _ & H2).
        destruct (H2 eq_refl) as (-> & Hid & Hlen).
        split; [reflexivity |]. split; [discriminate |].
        intros _. split; [reflexivity |].
        rewrite Hid, Hlen, !map_app, !length_app.
        cbn. rewrite <- !app_assoc. split; [reflexivity | lia].
    + unfold bind, ret.
      specialize (IH eco lgs nps e).
      destruct (processSpawns _ _ _ _ _ _ _) as [[s' [[eco' lgs'] nps']] e'].
      cbn. destruct IH as (-> & H1 & H2). auto.
Qed.




Lemma runTick_planes ref current e :
  Forall (fun p => p_status p <> DEPARTED)
    (planes (fst (runTick Math_atan2 Math_cos Math_sin Math_random uuidv4
                          numberToString ref current e))).
Proof.
  unfold runTick.
  destruct (processSpawns _ _ _ _ _ _ _) as [[s' [[eco' lgs'] nps']] e1].
  destruct (physicsPass _ _ _ _ _ _ _ _ _ _ _) as [[mapped lg] e2].
  cbn. apply List.Forall_forall. intros p Hp.
  apply filter_In in Hp as [_ Hp].
  intros E. rewrite E in Hp. discriminate.
Qed.

(** The tick returns as soon as the scheduler has a finite number of
    candidates. *)
Lemma tick_returns ref prev e n :
  loopCount (numFlightsOf (effectiveDemandOf Math_sin (gameTime prev + 1)
                                             (demand (economy prev))))
    = Some n ->
  exists s' e',
    tick Math_atan2 Math_cos Math_sin Math_random uuidv4 numberToString
         ref prev e = Some (s', e').
Proof.
  intros Hn. unfold tick, schedulerStep.
  destruct (_ || _).
  - unfold generateSchedule. rewrite Hn.
    destruct (flightLoop _ _ _ _ _ _ _ _ _) as [res e1].
    destruct (runTick _ _ _ _ _ _ _ _ _) as [s1 e2]. eauto.
  - destruct (runTick _ _ _ _ _ _ _ _ _) as [s1 e2]. eauto.
Qed.

(** C8: the state that a tick commits holds no aircraft whose status is
    DEPARTED: the aircraft that reach it during the tick are dropped by
    the filter that closes the pass over the aircraft.  The tick does
    commit a state whenever the number of candidates of the scheduler is
    finite. *)
Theorem departed_removed ref prev e :
  (forall s' e',
      tick Math_atan2 Math_cos Math_sin Math_random uuidv4 numberToString
           ref prev e = Some (s', e') ->
      Forall (fun p => p_status p <> DEPARTED) (planes s')) /\
  (forall n,
      loopCount (numFlightsOf (effectiveDemandOf Math_sin (gameTime prev + 1)
                                                 (demand (economy prev))))
        = Some n ->
      exists s' e',
        tick Math_atan2 Math_cos Math_sin Math_random uuidv4 numberToString
             ref prev e = Some (s', e')).
Proof.
  split; [| apply tick_returns].
  intros s' e'. unfold tick.
  destruct (schedulerStep _ _ _ _ _ _ _ _) as [[sched e0] |];
    [| discriminate].
  intros [= H].
  match type of H with runTick _ _ _ _ _ _ ?r ?c ?e1 = _ =>
    pose proof (runTick_planes r c e1) as HF end.
  now rewrite H in HF.
Qed.

End DriverFacts.

(* ===================================================================== *)
(** * One aircraft, one tick *)
(* ===================================================================== *)

Ltac by_status H :=
  repeat (progress (cbv beta iota zeta; rewrite ?H; cbn [PlaneStatus_eqb negb])).

Section PhysicsFacts.
Variable Math_atan2 : float -> float -> float.
Variables Math_cos Math_sin : float -> float.
Variable Math_random : nat -> float.
Variable uuidv4 : nat -> string.
Variable numberToString : float -> string.

Local Abbreviation updatePlane := (updatePlanePhysics Math_atan2 Math_cos Math_sin).
Local Abbreviation step := (physicsStep Math_atan2 Math_cos Math_sin uuidv4 numberToString).

Lemma physicsStep_plane ups now view p lg e :
  fst (fst (step ups now view p lg e)) = updatePlane ups p view (lg_occupancy lg).
Proof.
  unfold physicsStep, bind, ret, logEntry, uuid.
  repeat match goal with |- context [if ?c then _ else _] => destruct c end;
    reflexivity.
Qed.

Lemma physicsStep_occupancy ups now view p lg e :
  lg_occupancy (snd (fst (step ups now view p lg e))) =
  claimGate p (updatePlane ups p view (lg_occupancy lg)) (lg_occupancy lg).
Proof.
  unfold physicsStep, bind, ret, logEntry, uuid.
  repeat match goal with |- context [if ?c then _ else _] => destruct c end;
    reflexivity.
Qed.


Local Abbreviation move := (moveTowards Math_atan2 Math_cos Math_sin).
Local Abbreviation moved := (movement Math_atan2 Math_cos Math_sin).

Lemma moveTowards_zero pos tx ty : snd (move pos tx ty 0%float) = false.
Proof.
  unfold moveTowards, JS.lt. now rewrite sqrt_not_negative.
Qed.

Lemma movement_fields s p :
  p_id (moved s p) = p_id p /\ p_status (moved s p) = p_status p /\
  p_targetGateId (moved s p) = p_targetGateId p /\
  p_timer (moved s p) = p_timer p.
Proof.
  unfold movement. destruct (p_waypoints p) as [| t rest]; [easy |].
  destruct (move _ _ _ _) as [pos []]; easy.
Qed.

Lemma movement_zero_waypoints p :
  p_waypoints (moved 0%float p) = p_waypoints p.
Proof.
  unfold movement. destruct (p_waypoints p) as [| t rest] eqn:E; [easy |].
  pose proof (moveTowards_zero (p_position p) (px t) (py t)) as H.
  destruct (move _ _ _ _) as [pos reached]. cbn in H. subst reached.
  exact E.
Qed.

Lemma adjustSpeed_zero st : adjustSpeed st 0%float = 0%float.
Proof. destruct st; reflexivity. Qed.

Lemma transitions_idle occ ups p :
  p_status p = HOLD_SHORT \/ p_status p = WAITING_FOR_GATE \/
  p_waypoints p <> [] ->
  transitions occ ups p = p.
Proof.
  unfold transitions. intros [H | [H | H]].
  - rewrite H. now destruct (p_waypoints p).
  - rewrite H. now destruct (p_waypoints p).
  - now destruct (p_waypoints p).
Qed.

Lemma PlaneStatus_eqb_eq a b : PlaneStatus_eqb a b = true <-> a = b.
Proof. destruct a, b; cbn; split; congruence. Qed.

Lemma isRunwayOccupied_iff all id :
  isRunwayOccupied all id = true <-> runwayBlocked all id.
Proof.
  unfold isRunwayOccupied, runwayBlocked. rewrite existsb_exists.
  split; intros (q & Hin & H); exists q; split; auto.
  - destruct (String.eqb (p_id q) id) eqn:E; [discriminate |].
    apply String.eqb_neq in E. split; [exact E |].
    destruct (PlaneStatus_eqb (p_status q) TAKEOFF) eqn:E1;
      [left; now apply PlaneStatus_eqb_eq |].
    destruct (PlaneStatus_eqb (p_status q) LANDING) eqn:E2;
      [right; left; now apply PlaneStatus_eqb_eq |].
    right; right. cbn in H. now destruct (onRunway (p_position q)).
  - destruct H as (Hne & H). apply String.eqb_neq in Hne. rewrite Hne.
    destruct H as [H | [H | H]]; rewrite ?H; cbn; [reflexivity | |].
    + now destruct (PlaneStatus_eqb LANDING TAKEOFF).
    + now destruct (PlaneStatus_eqb _ _ || PlaneStatus_eqb _ _).
Qed.

Lemma incomingTraffic_iff all :
  incomingTraffic all = true <-> approachConflict all.
Proof.
  unfold incomingTraffic, approachConflict. rewrite existsb_exists.
  split; intros (q & Hin & H); exists q; split; auto.
  - apply andb_true_iff in H as [H1 H2]. now apply PlaneStatus_eqb_eq in H1.
  - destruct H as [H1 H2]. apply PlaneStatus_eqb_eq in H1.
    now rewrite H1, H2.
Qed.

(** C5: an aircraft that leaves TAXI_OUT for HOLD_SHORT gets the timer
    20, and an aircraft in HOLD_SHORT keeps its timer.  While the runway
    is blocked (another aircraft, by identifier, takes off, lands or
    stands in the runway box) or an aircraft on approach is past
    x = -200, it stays in HOLD_SHORT; when neither holds it goes to
    TAKEOFF, bound for the far end of the runway. *)
Theorem holdShort_release (ups : list TechUpgrade) (all : list Plane)
    (occ : gmap string (option string)) :
  (forall q, p_status q = TAXI_OUT ->
     p_status (updatePlane ups q all occ) = HOLD_SHORT ->
     p_timer (updatePlane ups q all occ) = 20) /\
  (forall plane, p_status plane = HOLD_SHORT ->
     let r := updatePlane ups plane all occ in
     p_timer r = p_timer plane /\
     (runwayBlocked all (p_id plane) \/ approachConflict all ->
      p_status r = HOLD_SHORT) /\
     (~ runwayBlocked all (p_id plane) -> ~ approachConflict all ->
      p_status r = TAKEOFF /\ p_waypoints r = [mkPosition 3000 750 90])).
Proof.
  split.
  - intros q Hq. unfold updatePlanePhysics, approachCheck, holdShortCheck,
      waitingCheck. by_status Hq.
    generalize (adjustSpeed TAXI_OUT (baseSpeed (p_type q)) * SPEED_FACTOR)%float.
    intros s.
    destruct (movement_fields s q) as (_ & Hs & _ & Ht).
    unfold transitions. rewrite Hs, Hq.
    destruct (p_waypoints (moved s q)); cbn; [reflexivity |].
    rewrite Hs, Hq. discriminate.
  - intros plane Hp. cbv zeta.
    rewrite <- isRunwayOccupied_iff, <- incomingTraffic_iff.
    unfold updatePlanePhysics, approachCheck, holdShortCheck, waitingCheck.
    by_status Hp.
    destruct (isRunwayOccupied all (p_id plane)) eqn:Hrw;
      [| destruct (incomingTraffic all) eqn:Hin]; by_status Hp;
      cbn [p_status set_status set_waypoints push_history];
      by_status Hp; rewrite adjustSpeed_zero;
      change (0 * SPEED_FACTOR)%float with 0%float.
    + destruct (movement_fields 0%float plane) as (_ & Hs & _ & Ht).
      rewrite transitions_idle by (left; congruence).
      rewrite Hs, Ht. split; [reflexivity |].
      split; [intros _; exact Hp | intros Hx; now elim Hx].
    + destruct (movement_fields 0%float plane) as (_ & Hs & _ & Ht).
      rewrite transitions_idle by (left; congruence).
      rewrite Hs, Ht. split; [reflexivity |].
      split; [intros _; exact Hp | intros _ Hx; now elim Hx].
    + match goal with |- context [moved _ ?p] =>
        destruct (movement_fields 0%float p) as (_ & Hs & _ & Ht);
        pose proof (movement_zero_waypoints p) as Hw
      end.
      rewrite transitions_idle by (right; right; rewrite Hw; discriminate).
      rewrite Hs, Ht, Hw. cbn. split; [reflexivity |].
      split; [intros [Hx | Hx]; discriminate | intros _ _; now split].
Qed.

Lemma gateList_node ups g :
  In g (gateList ups) ->
  JS.truthy (Some g) = true /\
  exists node, findNode g = Some node /\ n_id node = g.
Proof.
  unfold gateList. destruct (hasTerminalExp ups); cbn;
    intros H; repeat (destruct H as [<- | H]; [split; [reflexivity | eexists; split; reflexivity] |]);
    contradiction.
Qed.

Lemma getFreeGate_Some occ ups g :
  getFreeGate occ ups = Some g ->
  In g (gateList ups) /\ JS.truthy (occupant occ g) = false.
Proof.
  unfold getFreeGate. intros H. apply find_some in H as [H1 H2].
  split; [exact H1 |]. now apply negb_true_iff in H2.
Qed.

Lemma getFreeGate_None occ ups :
  getFreeGate occ ups = None <->
  forall g, In g (gateList ups) -> JS.truthy (occupant occ g) = true.
Proof.
  unfold getFreeGate. split.
  - intros H g Hg. pose proof (find_none _ _ H g Hg) as Hn.
    now apply negb_false_iff in Hn.
  - intros H. destruct (find _ _) as [g |] eqn:E; [| reflexivity].
    apply find_some in E as [E1 E2]. rewrite (H g E1) in E2. discriminate.
Qed.

(** When a single gate is free, it is the one that is handed out. *)
Lemma getFreeGate_only occ ups g h :
  getFreeGate occ ups = Some h -> In g (gateList ups) ->
  (forall k, In k (gateList ups) -> k <> g ->
             JS.truthy (occupant occ k) = true) ->
  h = g.
Proof.
  intros Hh Hg Hothers. apply getFreeGate_Some in Hh as [Hin Hfree].
  destruct (decide (h = g)) as [-> | Hne]; [reflexivity |].
  rewrite (Hothers h Hin Hne) in Hfree. discriminate.
Qed.

End PhysicsFacts.

(* ===================================================================== *)
(** * The sweep line and the capacity of the gates *)
(* ===================================================================== *)

Section SweepFacts.

Lemma sweepFrom_mono points mx cur : mx <= fst (sweepFrom (mx, cur) points).
Proof.
  revert mx cur. induction points as [| p l IH]; intros mx cur; cbn; [lia |].
  specialize (IH (Z.max mx (cur + pt_type p)) (cur + pt_type p)).
  unfold sweepFrom in IH. lia.
Qed.

Lemma eventsUpTo_later t points :
  Forall (fun p => t < pt_t p) points -> eventsUpTo t points = 0.
Proof.
  induction 1 as [| p l Hp _ IH]; cbn; [reflexivity |].
  rewrite IH. destruct (Z.leb_spec (pt_t p) t); lia.
Qed.

Lemma sweepFrom_bound t points mx cur :
  StronglySorted (fun a b => pt_t a <= pt_t b) points ->
  cur <= mx ->
  cur + eventsUpTo t points <= fst (sweepFrom (mx, cur) points).
Proof.
  intros Hs. revert mx cur.
  induction Hs as [| p l Hs IH Hp]; intros mx cur Hle; cbn; [lia |].
  destruct (Z.leb_spec (pt_t p) t) as [Hpt | Hpt].
  - specialize (IH (Z.max mx (cur + pt_type p)) (cur + pt_type p)).
    unfold sweepFrom in IH. lia.
  - rewrite eventsUpTo_later.
    + pose proof (sweepFrom_mono l (Z.max mx (cur + pt_type p))
                                 (cur + pt_type p)) as Hm.
      unfold sweepFrom in Hm. lia.
    + eapply List.Forall_impl; [| exact Hp]. cbn. intros q Hq. lia.
Qed.

Lemma insertBy_perm {A} (cmp : A -> A -> Z) x l :
  Permutation (insertBy cmp x l) (x :: l).
Proof.
  induction l as [| y l IH]; cbn; [reflexivity |].
  destruct (cmp x y <=? 0); [reflexivity |].
  rewrite IH. apply perm_swap.
Qed.

Lemma sortBy_perm {A} (cmp : A -> A -> Z) l : Permutation (sortBy cmp l) l.
Proof.
  induction l as [| x l IH]; cbn; [reflexivity |].
  rewrite insertBy_perm. now constructor.
Qed.

Lemma insertBy_sorted {A} (key : A -> Z) cmp x l :
  follows key cmp ->
  StronglySorted (fun a b => key a <= key b) l ->
  StronglySorted (fun a b => key a <= key b) (insertBy cmp x l).
Proof.
  intros Hf. induction 1 as [| y l Hs IH Hy]; cbn.
  - repeat constructor.
  - destruct (Z.leb_spec (cmp x y) 0) as [Hc | Hc].
    + apply Hf in Hc. constructor; [now constructor |].
      constructor; [exact Hc |].
      eapply List.Forall_impl; [| exact Hy]. cbn. intros; lia.
    + apply Hf in Hc. constructor; [exact IH |].
      eapply Permutation_Forall; [symmetry; apply insertBy_perm |].
      now constructor.
Qed.

Lemma sortBy_sorted {A} (key : A -> Z) cmp l :
  follows key cmp ->
  StronglySorted (fun a b => key a <= key b) (sortBy cmp l).
Proof.
  intros Hf. induction l as [| x l IH]; cbn;
    [constructor | now apply insertBy_sorted].
Qed.

Lemma comparePoints_follows : follows pt_t comparePoints.
Proof.
  intros a b. unfold comparePoints.
  destruct (Z.eqb_spec (pt_t a - pt_t b) 0); lia.
Qed.

Lemma compareFlights_follows : follows f_scheduledTime compareFlights.
Proof. intros a b. unfold compareFlights. lia. Qed.

Lemma eventsUpTo_perm t l l' :
  Permutation l l' -> eventsUpTo t l = eventsUpTo t l'.
Proof. induction 1; cbn; lia. Qed.

Lemma eventsUpTo_pointsOf t ivs :
  Forall proper ivs -> eventsUpTo t (pointsOf ivs) = overlapAt ivs t.
Proof.
  unfold overlapAt. induction 1 as [| iv l Hiv _ IH]; [reflexivity |].
  cbn [pointsOf flat_map app eventsUpTo pt_t pt_type List.filter].
  fold (pointsOf l). rewrite IH.
  unfold covers, proper in *.
  destruct (Z.leb_spec (iv_start iv) t), (Z.leb_spec (iv_end iv) t),
    (Z.ltb_spec t (iv_end iv)); cbn [andb length]; lia.
Qed.

Lemma overlapAt_perm t l l' :
  Permutation l l' -> overlapAt l t = overlapAt l' t.
Proof.
  unfold overlapAt. induction 1; cbn;
    repeat match goal with |- context [covers ?i t] => destruct (covers i t) end;
    cbn; lia.
Qed.

Lemma overlapAt_app t l l' : overlapAt (l ++ l') t = overlapAt l t + overlapAt l' t.
Proof. unfold overlapAt. rewrite List.filter_app, length_app. lia. Qed.

(** The sweep is an upper bound of the overlap at every instant. *)
Lemma sweep_sound t ivs :
  Forall proper ivs ->
  overlapAt ivs t <= fst (sweep (sortBy comparePoints (pointsOf ivs))).
Proof.
  intros Hp. rewrite <- (eventsUpTo_pointsOf t ivs Hp).
  rewrite (eventsUpTo_perm t _ _ (Permutation_sym (sortBy_perm comparePoints _))).
  pose proof (sweepFrom_bound t _ 0 0
                (sortBy_sorted pt_t comparePoints (pointsOf ivs)
                               comparePoints_follows) (Z.le_refl 0)).
  unfold sweep, sweepFrom in *. lia.
Qed.

(** Inside the window of the candidate, the intervals that count are the
    relevant ones. *)
Lemma overlapAt_relevant t ivs s c :
  s <= t < c ->
  overlapAt (List.filter (fun iv => (iv_start iv <? c) && (s <? iv_end iv)) ivs) t
  = overlapAt ivs t.
Proof.
  intros Ht. unfold overlapAt. f_equal. f_equal.
  induction ivs as [| iv l IH]; [reflexivity |]. cbn.
  unfold covers at 2. unfold covers in IH.
  destruct (Z.ltb_spec (iv_start iv) c), (Z.ltb_spec s (iv_end iv)),
    (Z.leb_spec (iv_start iv) t), (Z.ltb_spec t (iv_end iv));
    cbn; unfold covers; rewrite ?IH;
    repeat match goal with
           | |- context [(?a <=? ?b)] => destruct (Z.leb_spec a b)
           | |- context [(?a <? ?b)] => destruct (Z.ltb_spec a b)
           end; cbn; try lia; try reflexivity; try (f_equal; exact IH).
Qed.

(** An accepted candidate keeps the capacity. *)
Lemma accept_sound gates committed s :
  Forall proper committed ->
  withinCapacity gates committed ->
  maxConcurrency committed s (s + GATE_OCCUPANCY_WINDOW) <= gates ->
  withinCapacity gates (committed ++ [windowOf s]).
Proof.
  intros Hp Hc Hmax t. unfold maxConcurrency in Hmax.
  assert (Hall : Forall proper (committed ++ [windowOf s])).
  { apply List.Forall_app. split; [exact Hp |]. repeat constructor.
    unfold proper, windowOf, GATE_OCCUPANCY_WINDOW. cbn. lia. }
  destruct (Z_le_gt_dec s t) as [H1 | H1];
    [destruct (Z_lt_ge_dec t (s + GATE_OCCUPANCY_WINDOW)) as [H2 | H2] |].
  - rewrite <- (overlapAt_relevant t _ s (s + GATE_OCCUPANCY_WINDOW)) by lia.
    etransitivity; [| exact Hmax]. apply sweep_sound.
    apply List.Forall_forall. intros iv Hiv. apply filter_In in Hiv as [Hiv _].
    rewrite List.Forall_forall in Hall. now apply Hall.
  - rewrite overlapAt_app. specialize (Hc t).
    assert (overlapAt [windowOf s] t = 0); [| lia].
    unfold overlapAt, covers, windowOf. cbn.
    destruct (Z.leb_spec s t), (Z.ltb_spec t (s + GATE_OCCUPANCY_WINDOW)); cbn; lia.
  - rewrite overlapAt_app. specialize (Hc t).
    assert (overlapAt [windowOf s] t = 0); [| lia].
    unfold overlapAt, covers, windowOf. cbn.
    destruct (Z.leb_spec s t), (Z.ltb_spec t (s + GATE_OCCUPANCY_WINDOW)); cbn; lia.
Qed.

End SweepFacts.

Section SchedulerFacts.

Variable Math_sin : float -> float.
Variable Math_random : nat -> float.
Variable uuidv4 : nat -> string.

Lemma newFlightAt_time ed st e :
  f_scheduledTime (fst (newFlightAt Math_random uuidv4 ed st e)) = st /\
  f_status (fst (newFlightAt Math_random uuidv4 ed st e)) = Scheduled.
Proof.
  unfold newFlightAt, drawType, bind, ret, random, uuid.
  repeat match goal with |- context [if ?c then _ else _] => destruct c end;
    cbn; split; reflexivity.
Qed.

Lemma attemptLoop_sound fuel now ed gates committed e :
  match fst (attemptLoop Math_random uuidv4 fuel now ed gates committed e) with
  | Some f =>
      maxConcurrency committed (f_scheduledTime f)
        (f_scheduledTime f + GATE_OCCUPANCY_WINDOW) <= gates /\
      f_status f = Scheduled
  | None => True
  end.
Proof.
  revert e. induction fuel as [| fuel IH]; intros e; [exact I |].
  cbn [attemptLoop]. unfold bind at 1, random at 1. cbv beta iota zeta.
  set (st := now + floorInt (Math_random (randomCalls e) * 360) + 60).
  destruct (Z.leb_spec (maxConcurrency committed st (st + GATE_OCCUPANCY_WINDOW)) gates) as [Hle | Hgt].
  - unfold bind, ret.
    destruct (newFlightAt_time ed st (mkEntropy (S (randomCalls e)) (uuidCalls e)))
      as [Ht Hs].
    destruct (newFlightAt _ _ _ _ _) as [f e1]. cbn [fst] in *.
    rewrite Ht. split; [exact Hle | exact Hs].
  - apply IH.
Qed.

Lemma proper_windowOf s : proper (windowOf s).
Proof. unfold proper, windowOf, GATE_OCCUPANCY_WINDOW. cbn. lia. Qed.

Lemma flightLoop_sound n now ed gates future committed e :
  Forall proper committed -> withinCapacity gates committed ->
  exists added,
    fst (fst (flightLoop Math_random uuidv4 n now ed gates future committed e))
      = future ++ added /\
    snd (fst (flightLoop Math_random uuidv4 n now ed gates future committed e))
      = committed ++ windowsOf added /\
    Forall (fun f => f_status f = Scheduled) added /\
    withinCapacity gates (committed ++ windowsOf added).
Proof.
  revert future committed e.
  induction n as [| n IH]; intros future committed e Hp Hc.
  - exists []. cbn. rewrite !app_nil_r. auto.
  - cbn [flightLoop]. unfold bind.
    pose proof (attemptLoop_sound 15 now ed gates committed e) as Ha.
    destruct (attemptLoop _ _ _ _ _ _ _ _) as [[f |] e1]; cbn in Ha;
      cbv beta iota.
    + destruct Ha as [Hmax Hst].
      assert (Hc' : withinCapacity gates (committed ++ [windowOf (f_scheduledTime f)]))
        by now apply accept_sound.
      assert (Hp' : Forall proper (committed ++ [windowOf (f_scheduledTime f)])).
      { apply List.Forall_app. split; [exact Hp |].
        repeat constructor. apply proper_windowOf. }
      destruct (IH (future ++ [f]) _ e1 Hp' Hc') as (added & H1 & H2 & H3 & H4).
      exists (f :: added). cbn [windowsOf map].
      rewrite H1, H2, <- !app_assoc. cbn. repeat split; auto.
      now rewrite <- app_assoc in H4.
    + apply IH; assumption.
Qed.

Lemma committedOf_proper sched now : Forall proper (committedOf sched now).
Proof.
  unfold committedOf. apply List.Forall_forall. intros iv Hiv.
  apply in_map_iff in Hiv as (f & <- & _). apply proper_windowOf.
Qed.

(** The scheduler returns as soon as its number of candidates is
    finite. *)
Lemma generateSchedule_returns refSchedule refUpgrades currentTime
    baseDemand e n :
  loopCount (numFlightsOf (effectiveDemandOf Math_sin currentTime baseDemand))
    = Some n ->
  exists batch e',
    generateSchedule Math_sin Math_random uuidv4 refSchedule refUpgrades
                     currentTime baseDemand e = Some (batch, e').
Proof.
  intros H. unfold generateSchedule. rewrite H.
  destruct (flightLoop _ _ _ _ _ _ _ _ _) as [res e1]. eauto.
Qed.

(** A batch of [generateSchedule], when the windows of the pending flights
    that the scheduler reads are within the gate count: with the window
    of every flight of the batch added, they still are.  The batch is made
    of Scheduled flights, sorted by time. *)
Lemma generateSchedule_sound (refSchedule : list ScheduledFlight)
    (refUpgrades : list TechUpgrade) (currentTime : Z) (baseDemand : float)
    (e e' : Entropy) (batch : list ScheduledFlight) :
  withinCapacity (totalGates refUpgrades) (committedOf refSchedule currentTime) ->
  generateSchedule Math_sin Math_random uuidv4 refSchedule refUpgrades
                   currentTime baseDemand e = Some (batch, e') ->
  withinCapacity (totalGates refUpgrades)
    (committedOf refSchedule currentTime ++ windowsOf batch) /\
  Forall (fun f => f_status f = Scheduled) batch /\
  StronglySorted (fun a b => f_scheduledTime a <= f_scheduledTime b) batch.
Proof.
  intros Hc. unfold generateSchedule.
  destruct (loopCount _) as [n |]; [| discriminate].
  destruct (flightLoop_sound n currentTime
              (effectiveDemandOf Math_sin currentTime baseDemand)
              (totalGates refUpgrades) [] _ e
              (committedOf_proper refSchedule currentTime) Hc)
    as (added & H1 & _ & H3 & H4).
  destruct (flightLoop _ _ _ _ _ _ _ _ _) as [[future committed] e1].
  cbn in H1. subst future. intros [= <- <-]. cbn [fst].
  pose proof (sortBy_perm compareFlights added) as Hperm.
  split; [| split].
  - intros t. specialize (H4 t). rewrite overlapAt_app in *.
    rewrite (overlapAt_perm t (windowsOf (sortBy compareFlights added))
               (windowsOf added)); [exact H4 |].
    unfold windowsOf. now apply Permutation_map.
  - eapply Permutation_Forall; [symmetry; exact Hperm | exact H3].
  - apply sortBy_sorted, compareFlights_follows.
Qed.

End SchedulerFacts.

(* ===================================================================== *)
(** * The seasons *)
(* ===================================================================== *)

Section SeasonFacts.



Lemma seasonalityR_mod m : seasonalityR (m mod 12) = seasonalityR m.
Proof.
  rewrite (Z.div_mod m 12) at 2 by lia.
  generalize (m mod 12). generalize (m / 12). intros k r.
  unfold seasonalityR. rewrite plus_IZR, mult_IZR.
  replace ((IZR 12 * IZR k + IZR r - 2) * PI / 6)%R
    with ((IZR r - 2) * PI / 6 + 2 * IZR k * PI)%R by field.
  destruct k as [| p | p].
  - now rewrite Rmult_0_r, Rmult_0_l, Rplus_0_r.
  - rewrite <- (positive_nat_Z p), <- INR_IZR_INZ. now rewrite sin_period.
  - rewrite <- (Pos2Z.opp_pos p), opp_IZR, <- (positive_nat_Z p),
      <- INR_IZR_INZ.
    rewrite <- (sin_period
                  ((IZR r - 2) * PI / 6 + 2 * - INR (Pos.to_nat p) * PI)
                  (Pos.to_nat p)).
    do 3 f_equal. field.
Qed.

(** [i] months of 43200 minutes later, the month index has moved by [i],
    modulo 12. *)
Lemma monthIndex_shift t i :
  0 <= t -> 0 <= i ->
  monthIndex (getGameDate (t + i * 43200))
  = (monthIndex (getGameDate t) + i) mod 12.
Proof.
  intros Ht Hi. unfold getGameDate, START_TIME_OFFSET. cbn [monthIndex].
  change (1440 * 30 * 12) with 518400. change (1440 * 30) with 43200.
  set (a := t + 172800).
  replace (t + i * 43200 + 172800) with (a + i * 43200) by lia.
  assert (Ha : 0 <= a) by lia. clearbody a.
  rewrite (Z.mod_eq (a + i * 43200) 518400), (Z.mod_eq a 518400) by lia.
  replace 518400 with (43200 * 12) by lia.
  rewrite <- !Z.div_div by lia.
  rewrite Z.div_add by lia.
  set (q := a / 43200).
  replace (a + i * 43200 - 43200 * 12 * ((q + i) / 12))
    with (a + (i - 12 * ((q + i) / 12)) * 43200) by lia.
  rewrite Z.div_add by lia. fold q.
  replace (a - 43200 * 12 * (q / 12))
    with (a + (- (12 * (q / 12))) * 43200) by lia.
  rewrite Z.div_add by lia. fold q.
  rewrite (Z.mod_eq (q + - (12 * (q / 12)) + i) 12) by lia.
  replace (q + - (12 * (q / 12)) + i) with (q + i + (- (q / 12)) * 12) by lia.
  rewrite Z.div_add by lia. lia.
Qed.

(** The projection for the month that lies [i] months ahead uses the
    multiplier that the scheduler uses once the clock is there. *)
Lemma projection_meets_scheduler t i :
  0 <= t -> 0 <= i ->
  seasonalityR (monthIndex (getGameDate t) + i)
  = seasonalityR (monthIndex (getGameDate (t + i * 43200))).
Proof.
  intros Ht Hi. now rewrite monthIndex_shift, seasonalityR_mod.
Qed.


End SeasonFacts.

(* ===================================================================== *)
(** * The bounds of the economy counters *)
(* ===================================================================== *)

Section EconomyFacts.

Variable Math_atan2 : float -> float -> float.
Variables Math_cos Math_sin : float -> float.
Variable Math_random : nat -> float.
Variable uuidv4 : nat -> string.
Variable numberToString : float -> string.

Local Abbreviation updatePlane :=
  (updatePlanePhysics Math_atan2 Math_cos Math_sin).
Local Abbreviation step :=
  (physicsStep Math_atan2 Math_cos Math_sin uuidv4 numberToString).




End EconomyFacts.


(** The upgrade and the campaign add to the demand without a clamp. *)
Lemma demand_leaves_bounds :
  let eco := set_demand 190%float (set_balance 500000%float INITIAL_ECONOMY) in
  inBounds eco = true /\
  demand (economy (fst (purchaseUpgrade sampleUuid "radar_system"
                          (set_economy eco richState) noEntropy)))
    = 215%float /\
  demand (set_demand 200%float eco) = 200%float /\
  demand (economy (fst (influenceEconomy sampleUuid tourism
                          (set_economy (set_demand 200%float eco) richState)
                          noEntropy))) = 205%float.
Proof. vm_compute. repeat split. Qed.

(* ===================================================================== *)
(** * The gates: one aircraft each *)
(* ===================================================================== *)

Section GateFacts.
Variable Math_atan2 : float -> float -> float.
Variables Math_cos Math_sin : float -> float.
Variable Math_random : nat -> float.
Variable uuidv4 : nat -> string.
Variable numberToString : float -> string.

Local Abbreviation updatePlane :=
  (updatePlanePhysics Math_atan2 Math_cos Math_sin).
Local Abbreviation moved := (movement Math_atan2 Math_cos Math_sin).

Lemma GateStep_refl occ ups p : GateStep occ ups p p.
Proof. unfold GateStep. auto. Qed.

Lemma GateStep_trans occ ups p u r :
  GateStep occ ups p u -> GateStep occ ups u r -> GateStep occ ups p r.
Proof.
  intros (Hid1 & Hok1 & H1) (Hid2 & Hok2 & H2).
  split; [congruence |]. split; [auto |].
  destruct H2 as [H2 | [H2 | H2]]; [| now right; left | now right; right].
  rewrite H2. exact H1.
Qed.

Lemma holdsGate_status p :
  holdsGate p = true <->
  JS.truthy (p_targetGateId p) = true /\
  (p_status p = TAXI_IN \/ p_status p = PARKED \/
   p_status p = WAITING_FOR_GATE).
Proof.
  unfold holdsGate. rewrite andb_true_iff, !orb_true_iff,
    !PlaneStatus_eqb_eq. tauto.
Qed.

(** A step that keeps the gate and the status, or moves between two
    statuses that hold no gate. *)
Lemma GateStep_keep occ ups p r :
  p_id r = p_id p -> p_targetGateId r = p_targetGateId p ->
  (p_status r = p_status p \/
   p_status r = TAXI_IN \/ p_status r = PARKED \/
   p_status r = WAITING_FOR_GATE \/
   (p_status p <> TAXI_IN /\ p_status p <> PARKED /\
    p_status p <> WAITING_FOR_GATE)) ->
  GateStep occ ups p r.
Proof.
  intros Hid Hg Hs. split; [exact Hid |]. split; [| now left].
  unfold gateHolderOk. rewrite !holdsGate_status, Hg.
  intros Hok Ht. specialize (Hok Ht) as [_ Hok]. split; [exact Ht |].
  destruct Hs as [-> | [-> | [-> | [-> | (H1 & H2 & H3)]]]]; auto.
  destruct Hok as [? | [? | ?]]; contradiction.
Qed.

Lemma approachCheck_gate occ ups all p :
  GateStep occ ups p (approachCheck all p p).
Proof.
  unfold approachCheck.
  destruct (PlaneStatus_eqb (p_status p) APPROACH) eqn:Hs;
    [| apply GateStep_refl].
  apply PlaneStatus_eqb_eq in Hs.
  destruct (_ && _); [| apply GateStep_refl].
  destruct (isRunwayOccupied _ _); [| apply GateStep_refl].
  apply GateStep_keep; cbn; auto.
  right; right; right; right. rewrite Hs. repeat split; discriminate.
Qed.

Lemma holdShortCheck_gate occ ups all p u s :
  GateStep occ ups u (fst (holdShortCheck all p (u, s))).
Proof.
  unfold holdShortCheck.
  destruct (PlaneStatus_eqb (p_status u) HOLD_SHORT) eqn:Hs;
    [| apply GateStep_refl].
  apply PlaneStatus_eqb_eq in Hs.
  destruct (negb _); [| apply GateStep_refl].
  destruct (negb _); [| apply GateStep_refl].
  apply GateStep_keep; cbn; auto.
  right; right; right; right. rewrite Hs. repeat split; discriminate.
Qed.

Lemma claim_gate occ ups p h r :
  getFreeGate occ ups = Some h ->
  p_id r = p_id p -> p_targetGateId r = Some h ->
  p_status r = TAXI_IN ->
  GateStep occ ups p r.
Proof.
  intros Hh Hid Hg Hs. split; [exact Hid |]. split.
  - intros _ _. apply holdsGate_status. rewrite Hg, Hs.
    apply getFreeGate_Some in Hh as [Hin _].
    split; [now apply (gateList_node ups h) | now left].
  - right; right. eauto.
Qed.

Lemma waitingCheck_gate occ ups u s :
  GateStep occ ups u (fst (waitingCheck occ ups (u, s))).
Proof.
  unfold waitingCheck.
  destruct (PlaneStatus_eqb (p_status u) WAITING_FOR_GATE);
    [| apply GateStep_refl].
  destruct (getFreeGate occ ups) as [h |] eqn:Hh;
    [| apply GateStep_refl].
  destruct (JS.truthy (Some h)); [| apply GateStep_refl].
  destruct (Some h ≫= findNode); cbn [fst];
    apply (claim_gate occ ups u h); auto.
Qed.

Lemma movement_gate occ ups s u : GateStep occ ups u (moved s u).
Proof.
  destruct (movement_fields Math_atan2 Math_cos Math_sin s u)
    as (Hid & Hs & Hg & _).
  apply GateStep_keep; auto.
Qed.

Lemma transitions_gate occ ups m :
  GateStep occ ups m (transitions occ ups m).
Proof.
  unfold transitions. destruct (p_waypoints m); [| apply GateStep_refl].
  destruct (p_status m) eqn:Hs; try apply GateStep_refl.
  - apply GateStep_keep; cbn; auto.
    right; right; right; right. rewrite Hs. repeat split; discriminate.
  - apply GateStep_keep; cbn; auto.
  - destruct (JS.truthy (p_targetGateId m)) eqn:Ht.
    + destruct (JS.gt _ _); [| apply GateStep_refl].
      apply GateStep_keep; cbn; auto.
    + destruct (getFreeGate occ ups) as [h |] eqn:Hh.
      * destruct (JS.truthy (Some h)).
        -- destruct (Some h ≫= findNode);
             apply (claim_gate occ ups m h); auto.
        -- apply GateStep_keep; cbn; auto.
      * cbn [JS.truthy]. apply GateStep_keep; cbn; auto.
  - destruct (0 <? p_timer m).
    + apply GateStep_keep; cbn; auto.
    + split; [reflexivity |]. split; [| right; left; reflexivity].
      intros _ Ht. discriminate Ht.
  - apply GateStep_keep; cbn; auto.
    right; right; right; right. rewrite Hs. repeat split; discriminate.
  - apply GateStep_keep; cbn; auto.
    right; right; right; right. rewrite Hs. repeat split; discriminate.
  - apply GateStep_keep; cbn; auto.
    right; right; right; right. rewrite Hs. repeat split; discriminate.
Qed.

(** One aircraft, one tick: the gate is kept, dropped, or it is the free
    gate of the occupancy that the aircraft was shown. *)
Lemma updatePlane_gate ups p all occ :
  GateStep occ ups p (updatePlane ups p all occ).
Proof.
  unfold updatePlanePhysics.
  pose proof (approachCheck_gate occ ups all p) as H1.
  pose proof (holdShortCheck_gate occ ups all p (approachCheck all p p)
                (baseSpeed (p_type p))) as H2.
  destruct (holdShortCheck _ _ _) as [u1 s1]. cbn [fst] in H2.
  pose proof (waitingCheck_gate occ ups u1 s1) as H3.
  destruct (waitingCheck _ _ _) as [u2 s2]. cbn [fst] in H3.
  eapply GateStep_trans; [exact H1 |].
  eapply GateStep_trans; [exact H2 |].
  eapply GateStep_trans; [exact H3 |].
  eapply GateStep_trans; [apply movement_gate | apply transitions_gate].
Qed.

Lemma heldGate_some p g :
  g ∈ heldGate p <-> p_targetGateId p = Some g /\ g <> "".
Proof.
  unfold heldGate. destruct (p_targetGateId p) as [h |].
  - destruct (String.eqb_spec h "") as [-> | Hne].
    + split; [intros H; inversion H | intros [[= ->] H]; now elim H].
    + rewrite list_elem_of_singleton. split.
      * now intros ->.
      * now intros [[= ->] _].
  - split; [intros H; inversion H | intros [[=] _]].
Qed.

Lemma heldGate_truthy p :
  JS.truthy (p_targetGateId p) = false -> heldGate p = [].
Proof.
  unfold heldGate, JS.truthy. destruct (p_targetGateId p) as [h |]; [| easy].
  now destruct (String.eqb h "").
Qed.

Lemma heldGate_eq p r :
  p_targetGateId r = p_targetGateId p -> heldGate r = heldGate p.
Proof. unfold heldGate. now intros ->. Qed.

Lemma heldGates_app l k : heldGates (l ++ k) = heldGates l ++ heldGates k.
Proof. apply flat_map_app. Qed.

Lemma elem_of_heldGates g L :
  g ∈ heldGates L <-> exists p, p ∈ L /\ g ∈ heldGate p.
Proof.
  unfold heldGates. rewrite list_elem_of_In, in_flat_map.
  split; intros (p & H1 & H2); exists p;
    rewrite ?list_elem_of_In in *; auto.
Qed.

Lemma strict_ne_refl x : JS.strict_ne x x = false.
Proof. destruct x as [s |]; cbn; [now rewrite String.eqb_refl | easy]. Qed.

Lemma truthy_id (id : string) : id <> "" -> JS.truthy (Some id) = true.
Proof. intros H. cbn. now apply String.eqb_neq in H as ->. Qed.

(** One step of the pass keeps its invariant. *)
Lemma PassInv_step ups occ out p r todo :
  PassInv occ (out ++ p :: todo) -> GateStep occ ups p r ->
  PassInv (claimGate p r occ) (out ++ r :: todo).
Proof.
  intros (Hnd & Hok & Hids & Hb) (Hid & Hokr & Hg).
  rewrite heldGates_app in Hnd. cbn [heldGates flat_map] in Hnd.
  fold (heldGates todo) in Hnd.
  apply Forall_app in Hok as [Hok1 Hok2]. apply Forall_cons in Hok2 as [Hokp Hok2].
  apply Forall_app in Hids as [Hid1 Hid2]. apply Forall_cons in Hid2 as [Hidp Hid2].
  assert (Hokr' : gateHolderOk r) by auto.
  assert (Hidr : p_id r <> "") by congruence.
  assert (Hfree : forall h, JS.truthy (occupant occ h) = false ->
                            h ∉ heldGates (out ++ p :: todo)).
  { intros h Hh Hin. apply elem_of_heldGates in Hin as (q & Hq & Hgq).
    rewrite (Hb q h Hq Hgq) in Hh.
    assert (p_id q <> "").
    { rewrite Forall_forall in Hid1, Hid2.
      apply elem_of_app in Hq as [Hq | Hq]; [auto |].
      apply elem_of_cons in Hq as [-> | Hq]; auto. }
    now rewrite truthy_id in Hh. }
  destruct Hg as [Hg | [Hg | (h & Hh & Hg)]].
  - (* the gate is kept *)
    assert (claimGate p r occ = occ) as ->.
    { unfold claimGate. rewrite Hg, strict_ne_refl. now rewrite andb_false_r. }
    split; [| split; [| split]].
    + rewrite heldGates_app. cbn [heldGates flat_map]. fold (heldGates todo).
      now rewrite (heldGate_eq p r Hg).
    + apply Forall_app. split; [exact Hok1 | now apply Forall_cons].
    + apply Forall_app. split; [exact Hid1 | now apply Forall_cons].
    + intros q g Hq Hgq. apply elem_of_app in Hq as [Hq | Hq].
      * apply Hb; [apply elem_of_app; now left | exact Hgq].
      * apply elem_of_cons in Hq as [-> | Hq].
        -- rewrite Hid. apply Hb; [apply elem_of_app; right; now left |].
           now rewrite <- (heldGate_eq p r Hg).
        -- apply Hb; [apply elem_of_app; right; now right | exact Hgq].
  - (* the gate is dropped *)
    assert (claimGate p r occ = occ) as ->.
    { unfold claimGate. now rewrite Hg. }
    split; [| split; [| split]].
    + rewrite heldGates_app. cbn [heldGates flat_map]. fold (heldGates todo).
      rewrite (heldGate_truthy r Hg). cbn [app].
      apply NoDup_app in Hnd as (H1 & H2 & H3).
      apply NoDup_app in H3 as (_ & _ & H3).
      apply NoDup_app. split; [exact H1 |]. split; [| exact H3].
      intros x Hx Hx'. apply (H2 x Hx). apply elem_of_app. now right.
    + apply Forall_app. split; [exact Hok1 | now apply Forall_cons].
    + apply Forall_app. split; [exact Hid1 | now apply Forall_cons].
    + intros q g Hq Hgq. apply elem_of_app in Hq as [Hq | Hq].
      * apply Hb; [apply elem_of_app; now left | exact Hgq].
      * apply elem_of_cons in Hq as [-> | Hq].
        -- rewrite (heldGate_truthy r Hg) in Hgq. inversion Hgq.
        -- apply Hb; [apply elem_of_app; right; now right | exact Hgq].
  - (* the free gate is claimed *)
    pose proof (getFreeGate_Some _ _ _ Hh) as [Hin Hhfree].
    destruct (gateList_node ups h Hin) as [Htr _].
    pose proof (Hfree h Hhfree) as Hnew.
    assert (Hhne : h <> "").
    { intros ->. discriminate Htr. }
    assert (Hpg : p_targetGateId p <> Some h).
    { intros E. apply Hnew, elem_of_heldGates. exists p.
      split; [apply elem_of_app; right; now left |].
      now apply heldGate_some. }
    assert (claimGate p r occ = <[h := Some (p_id r)]> occ) as ->.
    { unfold claimGate. rewrite Hg, Htr. cbn [andb assign].
      destruct (p_targetGateId p) as [k |]; cbn; [| reflexivity].
      destruct (String.eqb_spec h k) as [-> | _]; [now elim Hpg | reflexivity]. }
    assert (Hr : heldGate r = [h]).
    { unfold heldGate. rewrite Hg.
      now apply String.eqb_neq in Hhne as ->. }
    rewrite heldGates_app in Hnew. cbn [heldGates flat_map] in Hnew.
    fold (heldGates todo) in Hnew.
    split; [| split; [| split]].
    + rewrite heldGates_app. cbn [heldGates flat_map]. fold (heldGates todo).
      rewrite Hr.
      apply NoDup_app in Hnd as (H1 & H2 & H3).
      apply NoDup_app in H3 as (_ & H4 & H3).
      apply NoDup_app. split; [exact H1 |]. split.
      * intros x Hx Hx'. apply elem_of_app in Hx' as [Hx' | Hx'].
        -- apply list_elem_of_singleton in Hx' as ->.
           apply Hnew, elem_of_app. now left.
        -- apply (H2 x Hx). apply elem_of_app. now right.
      * cbn. apply NoDup_cons. split; [| exact H3].
        intros Hx. apply Hnew. apply elem_of_app. right.
        apply elem_of_app. now right.
    + apply Forall_app. split; [exact Hok1 | now apply Forall_cons].
    + apply Forall_app. split; [exact Hid1 | now apply Forall_cons].
    + intros q g Hq Hgq.
      assert (Hother : forall q', q' ∈ out ++ p :: todo -> g ∈ heldGate q' ->
                occupant (<[h := Some (p_id r)]> occ) g = Some (p_id q')).
      { intros q' Hq' Hgq'.
        assert (g <> h).
        { intros ->. apply (Hfree h Hhfree), elem_of_heldGates. eauto. }
        unfold occupant. rewrite lookup_insert_ne by congruence.
        now apply Hb. }
      apply elem_of_app in Hq as [Hq | Hq].
      * apply Hother; [apply elem_of_app; now left | exact Hgq].
      * apply elem_of_cons in Hq as [-> | Hq].
        -- rewrite Hr in Hgq. apply list_elem_of_singleton in Hgq as ->.
           unfold occupant. now rewrite lookup_insert_eq.
        -- apply Hother; [apply elem_of_app; right; now right | exact Hgq].
Qed.

Local Abbreviation pass :=
  (physicsPass Math_atan2 Math_cos Math_sin uuidv4 numberToString).

(** The pass over the aircraft keeps its invariant: [out] are the
    aircraft already updated. *)
Lemma physicsPass_gates ups now seen todo lg e out :
  PassInv (lg_occupancy lg) (out ++ todo) ->
  PassInv (lg_occupancy (snd (fst (pass ups now seen todo lg e))))
          (out ++ fst (fst (pass ups now seen todo lg e))).
Proof.
  revert seen lg e out.
  induction todo as [| p rest IH]; intros seen lg e out Hinv; [exact Hinv |].
  cbn [physicsPass]. unfold bind, ret.
  pose proof (physicsStep_plane Math_atan2 Math_cos Math_sin uuidv4
                numberToString ups now (seen ++ p :: rest) p lg e) as Hr.
  pose proof (physicsStep_occupancy Math_atan2 Math_cos Math_sin uuidv4
                numberToString ups now (seen ++ p :: rest) p lg e) as Ho.
  destruct (physicsStep _ _ _ _ _ _ _ _ _ _ _) as [[r lg1] e1].
  cbn [fst snd] in Hr, Ho. 
  assert (Hstep : PassInv (lg_occupancy lg1) ((out ++ [r]) ++ rest)).
  { rewrite <- app_assoc. cbn [app]. rewrite Ho, Hr.
    apply (PassInv_step ups); [exact Hinv | apply updatePlane_gate]. }
  specialize (IH (seen ++ [set_position (p_position r) p]) lg1 e1
                 (out ++ [r]) Hstep).
  destruct (physicsPass _ _ _ _ _ _ _ _ _ _ _) as [[res lg2] e2].
  cbn [fst snd] in *. now rewrite <- app_assoc in IH.
Qed.


Lemma rebuild_other g ps occ :
  (forall p, p ∈ ps -> g ∉ heldGate p) ->
  occupant (fold_left (fun occupancy p =>
              if holdsGate p then assign (p_targetGateId p) (p_id p) occupancy
              else occupancy) ps occ) g = occupant occ g.
Proof.
  revert occ. induction ps as [| x l IH]; intros occ Hno; [reflexivity |].
  cbn [fold_left]. rewrite IH.
  - destruct (holdsGate x) eqn:Hx; [| reflexivity].
    apply holdsGate_status in Hx as [Ht _].
    destruct (p_targetGateId x) as [k |] eqn:Hk; [| reflexivity].
    cbn [assign]. unfold occupant. rewrite lookup_insert_ne; [reflexivity |].
    intros ->. apply (Hno x); [now left |].
    apply heldGate_some. split; [exact Hk |]. intros ->. discriminate Ht.
  - intros p Hp. apply Hno. now right.
Qed.

Lemma rebuild_bound gateOcc ps :
  NoDup (heldGates ps) -> Forall gateHolderOk ps ->
  Bound (rebuildOccupancy gateOcc ps) ps.
Proof.
  unfold rebuildOccupancy. generalize ((fun _ : option string => @None string) <$> gateOcc).
  induction ps as [| x l IH]; intros occ Hnd Hok p g Hp Hg;
    [inversion Hp |].
  cbn [heldGates flat_map] in Hnd. fold (heldGates l) in Hnd.
  apply NoDup_app in Hnd as (_ & Hdisj & Hnd).
  apply Forall_cons in Hok as [Hokx Hok].
  cbn [fold_left].
  destruct (decide (g ∈ heldGate x)) as [Hgx | Hgx].
  - pose proof Hgx as Hgx'. apply heldGate_some in Hgx' as [Hk Hne].
    assert (Hx : holdsGate x = true).
    { apply Hokx. rewrite Hk. now apply truthy_id. }
    rewrite Hx, Hk. cbn [assign]. rewrite rebuild_other.
    + unfold occupant. rewrite lookup_insert_eq.
      apply elem_of_cons in Hp as [-> | Hp]; [reflexivity |].
      exfalso. apply (Hdisj g Hgx). apply elem_of_heldGates. eauto.
    + intros q Hq Hgq. apply (Hdisj g Hgx). apply elem_of_heldGates. eauto.
  - apply elem_of_cons in Hp as [-> | Hp]; [contradiction |].
    now apply IH.
Qed.

Lemma Bound_app_new occ L N :
  Bound occ L -> Forall (fun p => heldGate p = []) N -> Bound occ (L ++ N).
Proof.
  intros Hb HN p g Hp Hg. apply elem_of_app in Hp as [Hp | Hp]; [auto |].
  rewrite Forall_forall in HN. rewrite (HN p Hp) in Hg. inversion Hg.
Qed.

Lemma heldGates_none N :
  Forall (fun p => heldGate p = []) N -> heldGates N = [].
Proof.
  induction 1 as [| p l Hp _ IH]; [reflexivity |].
  cbn [heldGates flat_map]. fold (heldGates l). now rewrite Hp, IH.
Qed.

Lemma processSpawns_fresh isCongested now sched eco lgs nps e :
  Forall (fun f => f_id f <> "") sched -> Forall freshPlane nps ->
  Forall freshPlane
    (snd (snd (fst (processSpawns Math_random uuidv4 isCongested now sched
                      (eco, lgs, nps) e)))).
Proof.
  revert eco lgs nps e.
  induction sched as [| flight rest IH]; intros eco lgs nps e Hs Hn;
    [exact Hn |].
  apply Forall_cons in Hs as [Hf Hs].
  cbn [processSpawns]. destruct (isDue now flight); [destruct isCongested |].
  - unfold bind, ret, logEntry, uuid. cbn.
    match goal with |- context [processSpawns _ _ _ _ _ ?acc ?e0] =>
      match acc with (?a, ?b, ?c) => specialize (IH a b c e0 Hs Hn) end end.
    now destruct (processSpawns _ _ _ _ _ _ _) as [[s' [[eco' lgs'] nps']] e'].
  - unfold bind, ret, logEntry, uuid, createPlane, random. cbn.
    match goal with |- context [processSpawns _ _ _ _ _ ?acc ?e0] =>
      match acc with (?a, ?b, ?c) => specialize (IH a b c e0 Hs) end end.
    destruct (processSpawns _ _ _ _ _ _ _) as [[s' [[eco' lgs'] nps']] e'].
    apply IH. apply Forall_app. split; [exact Hn |].
    apply Forall_cons. split; [| constructor].
    split; [reflexivity |]. split; [exact Hf |]. intros Ht. discriminate Ht.
  - unfold bind, ret. specialize (IH eco lgs nps e Hs Hn).
    now destruct (processSpawns _ _ _ _ _ _ _) as [[s' [[eco' lgs'] nps']] e'].
Qed.

Lemma markFirst_ids id st sched :
  map f_id (markFirst id st sched) = map f_id sched.
Proof.
  induction sched as [| s rest IH]; [reflexivity |]. cbn.
  destruct (String.eqb (f_id s) id); cbn; [reflexivity | now rewrite IH].
Qed.

Lemma physicsStep_schedule ups now view p lg e :
  map f_id (lg_schedule (snd (fst
    (physicsStep Math_atan2 Math_cos Math_sin uuidv4 numberToString
                 ups now view p lg e)))) = map f_id (lg_schedule lg).
Proof.
  unfold physicsStep, bind, ret, logEntry, uuid.
  repeat match goal with |- context [if ?c then _ else _] => destruct c end;
    cbn; rewrite ?markFirst_ids; reflexivity.
Qed.

Lemma physicsPass_schedule ups now seen todo lg e :
  map f_id (lg_schedule (snd (fst (pass ups now seen todo lg e))))
  = map f_id (lg_schedule lg).
Proof.
  revert seen lg e. induction todo as [| p rest IH]; intros seen lg e;
    [reflexivity |].
  cbn [physicsPass]. unfold bind, ret.
  pose proof (physicsStep_schedule ups now (seen ++ p :: rest) p lg e) as Hs.
  destruct (physicsStep _ _ _ _ _ _ _ _ _ _ _) as [[r lg1] e1].
  cbn [fst snd] in Hs.
  specialize (IH (seen ++ [set_position (p_position r) p]) lg1 e1).
  destruct (physicsPass _ _ _ _ _ _ _ _ _ _ _) as [[res lg2] e2].
  cbn [fst snd] in *. congruence.
Qed.

Lemma ids_of_map (l k : list ScheduledFlight) :
  map f_id l = map f_id k ->
  Forall (fun f => f_id f <> "") k -> Forall (fun f => f_id f <> "") l.
Proof.
  revert k. induction l as [| x l IH]; intros [| y k] [=] Hk; constructor.
  - apply Forall_cons in Hk as [Hy _]. congruence.
  - apply Forall_cons in Hk as [_ Hk]. eauto.
Qed.

Lemma NoDup_heldGates_filter f L :
  NoDup (heldGates L) -> NoDup (heldGates (List.filter f L)).
Proof.
  induction L as [| x l IH]; [easy |].
  cbn [heldGates flat_map List.filter]. fold (heldGates l).
  intros Hnd. apply NoDup_app in Hnd as (H1 & H2 & H3).
  destruct (f x); [| auto].
  cbn [heldGates flat_map]. fold (heldGates (List.filter f l)).
  apply NoDup_app. split; [exact H1 |]. split; [| auto].
  intros g Hg Hg'. apply (H2 g Hg).
  apply elem_of_heldGates in Hg' as (q & Hq & Hgq).
  apply elem_of_heldGates. exists q. split; [| exact Hgq].
  apply list_elem_of_In in Hq. apply filter_In in Hq as [Hq _].
  now apply list_elem_of_In.
Qed.

Lemma Forall_filter_keep {A} (P : A -> Prop) f (L : list A) :
  Forall P L -> Forall P (List.filter f L).
Proof.
  rewrite !Forall_forall. intros H x Hx. apply H.
  apply list_elem_of_In in Hx. apply filter_In in Hx as [Hx _].
  now apply list_elem_of_In.
Qed.

Lemma NoDup_distinctGates ps : NoDup (heldGates ps) -> distinctGates ps.
Proof.
  induction ps as [| x l IH]; intros Hnd i j p q Hij Hp Hq Ht E;
    [discriminate Hp |].
  cbn [heldGates flat_map] in Hnd. fold (heldGates l) in Hnd.
  apply NoDup_app in Hnd as (_ & Hdisj & Hnd).
  assert (Hg : exists g, p_targetGateId p = Some g /\ g <> "").
  { destruct (p_targetGateId p) as [g |]; [| discriminate Ht].
    exists g. split; [reflexivity |]. intros ->. discriminate Ht. }
  destruct Hg as (g & Hg & Hne).
  assert (Hgp : g ∈ heldGate p) by now apply heldGate_some.
  assert (Hgq : g ∈ heldGate q).
  { apply heldGate_some. split; [congruence | exact Hne]. }
  destruct i as [| i], j as [| j]; cbn in Hp, Hq.
  - now elim Hij.
  - injection Hp as ->. apply (Hdisj g Hgp). apply elem_of_heldGates.
    exists q. split; [| exact Hgq]. eapply list_elem_of_lookup_2; eauto.
  - injection Hq as ->. apply (Hdisj g Hgq). apply elem_of_heldGates.
    exists p. split; [| exact Hgp]. eapply list_elem_of_lookup_2; eauto.
  - apply (IH Hnd i j p q); auto.
Qed.

Local Abbreviation run :=
  (runTick Math_atan2 Math_cos Math_sin Math_random uuidv4 numberToString).

(** Steps 2 to 6 keep the invariant, and the occupancy that is committed
    names every aircraft at the gate it references. *)
Lemma runTick_gates ref current e :
  GateInvariant current ->
  GateInvariant (fst (run ref current e)) /\
  Bound (gateOccupancy (fst (run ref current e)))
        (planes (fst (run ref current e))).
Proof.
  intros (Hnd & Hok & Hids & Hsched). unfold runTick.
  pose proof (processSpawns_fresh (congested (planes current))
                (gameTime current) (schedule current) (economy current)
                (logs current) [] e Hsched (Forall_nil_2 _)) as Hnew.
  pose proof (processSpawns_spec Math_random uuidv4
                (congested (planes current)) (gameTime current)
                (schedule current) (economy current) (logs current) [] e)
    as Hspec.
  destruct (processSpawns _ _ _ _ _ _ _) as [[sched [[eco lgs] newPlanes]] e1].
  cbn [fst snd] in Hnew. destruct Hspec as (Hs' & _).
  set (occ0 := rebuildOccupancy (gateOccupancy current) (planes current)).
  set (lg0 := mkLedger sched eco lgs occ0).
  assert (Hfresh : Forall (fun p => heldGate p = []) newPlanes).
  { eapply Forall_impl; [exact Hnew |]. now intros p (H & _). }
  assert (Hinv : PassInv (lg_occupancy lg0) ([] ++ (planes current ++ newPlanes))).
  { cbn [app lg_occupancy lg0]. split; [| split; [| split]].
    - rewrite heldGates_app, (heldGates_none _ Hfresh). now rewrite app_nil_r.
    - apply Forall_app. split; [exact Hok |].
      eapply Forall_impl; [exact Hnew |]. now intros p (_ & _ & H).
    - apply Forall_app. split; [exact Hids |].
      eapply Forall_impl; [exact Hnew |]. now intros p (_ & H & _).
    - apply Bound_app_new; [| exact Hfresh]. now apply rebuild_bound. }
  pose proof (physicsPass_gates (upgrades ref) (gameTime current) []
                (planes current ++ newPlanes) lg0 e1 [] Hinv) as Hpass.
  pose proof (physicsPass_schedule (upgrades ref) (gameTime current) []
                (planes current ++ newPlanes) lg0 e1) as Hsch.
  destruct (physicsPass _ _ _ _ _ _ _ _ _ _ _) as [[mapped lg] e2].
  cbn [fst snd app] in Hpass, Hsch |- *.
  destruct Hpass as (Hnd' & Hok' & Hids' & Hb').
  split; [split; [| split; [| split]] |]; cbn [planes schedule gateOccupancy].
  - now apply NoDup_heldGates_filter.
  - now apply Forall_filter_keep.
  - now apply Forall_filter_keep.
  - apply (ids_of_map _ (schedule current)); [| exact Hsched].
    rewrite Hsch. cbn [lg_schedule lg0]. rewrite Hs', map_map.
    apply map_ext. intros f. unfold admitFlight.
    now destruct (isDue _ f).
  - intros p g Hp Hg. apply Hb'; [| exact Hg].
    apply list_elem_of_In in Hp. apply filter_In in Hp as [Hp _].
    now apply list_elem_of_In.
Qed.

Lemma insertBy_Forall {A} (P : A -> Prop) cmp x l :
  P x -> Forall P l -> Forall P (insertBy cmp x l).
Proof.
  intros Hx Hl. eapply Permutation_Forall;
    [symmetry; apply insertBy_perm | now constructor].
Qed.

Lemma sortBy_Forall {A} (P : A -> Prop) cmp (l : list A) :
  Forall P l -> Forall P (sortBy cmp l).
Proof.
  intros Hl. eapply Permutation_Forall; [symmetry; apply sortBy_perm | exact Hl].
Qed.

Lemma newFlightAt_id ed st e :
  exists k, f_id (fst (newFlightAt Math_random uuidv4 ed st e)) = uuidv4 k.
Proof.
  unfold newFlightAt, drawType, bind, ret, random, uuid.
  repeat match goal with |- context [if ?c then _ else _] => destruct c end;
    cbn; eexists; reflexivity.
Qed.

Lemma attemptLoop_id fuel now ed gates committed e :
  match fst (attemptLoop Math_random uuidv4 fuel now ed gates committed e) with
  | Some f => exists k, f_id f = uuidv4 k
  | None => True
  end.
Proof.
  revert e. induction fuel as [| fuel IH]; intros e; [exact I |].
  cbn [attemptLoop]. unfold bind at 1, random at 1. cbv beta iota zeta.
  destruct (_ <=? gates); [| apply IH].
  unfold bind, ret.
  match goal with |- context [newFlightAt _ _ ?a ?b ?c] =>
    pose proof (newFlightAt_id a b c) as Hid end.
  now destruct (newFlightAt _ _ _ _ _) as [f e1].
Qed.

Lemma flightLoop_ids n now ed gates future committed e :
  Forall (fun f => exists k, f_id f = uuidv4 k) future ->
  Forall (fun f => exists k, f_id f = uuidv4 k)
    (fst (fst (flightLoop Math_random uuidv4 n now ed gates future
                          committed e))).
Proof.
  revert future committed e.
  induction n as [| n IH]; intros future committed e Hf; [exact Hf |].
  cbn [flightLoop]. unfold bind.
  pose proof (attemptLoop_id 15 now ed gates committed e) as Ha.
  destruct (attemptLoop _ _ _ _ _ _ _ _) as [[f |] e1]; cbn in Ha;
    cbv beta iota; apply IH; [| exact Hf].
  apply Forall_app. split; [exact Hf | now repeat constructor].
Qed.

Hypothesis uuid_nonempty : forall n, uuidv4 n <> "".

Lemma schedulerStep_ids ref now d sched e sched' e' :
  Forall (fun f => f_id f <> "") sched ->
  schedulerStep Math_sin Math_random uuidv4 ref now d sched e
    = Some (sched', e') ->
  Forall (fun f => f_id f <> "") sched'.
Proof using uuid_nonempty.
  intros Hs. unfold schedulerStep.
  destruct (_ || _); [| now intros [= <- <-]].
  unfold generateSchedule. destruct (loopCount _) as [n |]; [| discriminate].
  match goal with |- context [flightLoop _ _ ?n ?a ?b ?c ?d0 ?f ?g] =>
    pose proof (flightLoop_ids n a b c d0 f g (Forall_nil_2 _)) as Hids end.
  destruct (flightLoop _ _ _ _ _ _ _ _ _) as [[future committed] e1].
  cbn [fst] in *. intros [= <- <-].
  apply sortBy_Forall, Forall_app. split.
  - now apply Forall_filter_keep.
  - apply sortBy_Forall. eapply Forall_impl; [exact Hids |].
    intros f (k & ->). apply uuid_nonempty.
Qed.

Local Abbreviation tick' :=
  (tick Math_atan2 Math_cos Math_sin Math_random uuidv4 numberToString).

Lemma tick_gates ref prev e s' e' :
  GateInvariant prev -> tick' ref prev e = Some (s', e') ->
  GateInvariant s' /\ distinctGates (planes s') /\
  Bound (gateOccupancy s') (planes s').
Proof using uuid_nonempty.
  intros (Hnd & Hok & Hids & Hsched). unfold tick.
  destruct (schedulerStep _ _ _ _ _ _ _ _) as [[sched e0] |] eqn:Hstep;
    [| discriminate].
  intros [= Hrun].
  pose proof (schedulerStep_ids _ _ _ _ _ _ _ Hsched Hstep) as Hsched'.
  match type of Hrun with runTick _ _ _ _ _ _ ?r ?c ?e1 = _ =>
    destruct (runTick_gates r c e1) as (Hinv & Hb) end.
  { repeat split; assumption. }
  rewrite Hrun in Hinv, Hb. cbn [fst] in Hinv, Hb.
  split; [exact Hinv |]. split; [| exact Hb].
  apply NoDup_distinctGates. apply Hinv.
Qed.

Local Abbreviation seeks := (seeksGate Math_atan2 Math_cos Math_sin).

Lemma seeker_step ups p all occ :
  seeks p ->
  let r := updatePlane ups p all occ in
  match getFreeGate occ ups with
  | Some h =>
      p_targetGateId r = Some h /\ p_status r = TAXI_IN /\
      exists node, findNode h = Some node /\
                   p_waypoints r = gateWaypoints node
  | None =>
      p_status r = WAITING_FOR_GATE /\
      p_targetGateId r = p_targetGateId p
  end.
Proof.
  intros (Hs & Ht & Hw). cbv zeta.
  unfold updatePlanePhysics, approachCheck, holdShortCheck, waitingCheck.
  by_status Hs. fold (taxiSpeed p).
  destruct (movement_fields Math_atan2 Math_cos Math_sin (taxiSpeed p) p)
    as (_ & Hms & Hmg & _).
  unfold transitions. rewrite Hw. rewrite Hms. rewrite Hs. rewrite Hmg.
  rewrite Ht.
  destruct (getFreeGate occ ups) as [h |] eqn:Hh.
  - apply getFreeGate_Some in Hh as [Hin _].
    destruct (gateList_node ups h Hin) as (Htr & node & Hnode & _).
    rewrite Htr. cbn [mbind option_bind]. rewrite Hnode.
    cbn [p_status p_targetGateId p_waypoints set_waypoints set_targetGateId].
    rewrite Hms, Hs. eauto.
  - cbn [JS.truthy p_status p_targetGateId set_status push_history].
    now rewrite Hmg.
Qed.

Lemma full_no_claim occ ups p r :
  getFreeGate occ ups = None -> GateStep occ ups p r ->
  claimGate p r occ = occ.
Proof.
  intros Hfull (_ & _ & [Hg | [Hg | (h & Hh & _)]]); unfold claimGate.
  - now rewrite Hg, strict_ne_refl, andb_false_r.
  - now rewrite Hg.
  - congruence.
Qed.

(** With no free gate, the pass leaves the occupancy as it is, and every
    aircraft is updated against it. *)
Lemma physicsPass_full ups now seen todo lg e :
  getFreeGate (lg_occupancy lg) ups = None ->
  lg_occupancy (snd (fst (pass ups now seen todo lg e))) = lg_occupancy lg /\
  Forall2 (fun p r => exists view,
               r = updatePlane ups p view (lg_occupancy lg))
          todo (fst (fst (pass ups now seen todo lg e))).
Proof.
  revert seen lg e. induction todo as [| p rest IH]; intros seen lg e Hfull.
  - split; [reflexivity | constructor].
  - cbn [physicsPass]. unfold bind, ret.
    pose proof (physicsStep_plane Math_atan2 Math_cos Math_sin uuidv4
                  numberToString ups now (seen ++ p :: rest) p lg e) as Hr.
    pose proof (physicsStep_occupancy Math_atan2 Math_cos Math_sin uuidv4
                  numberToString ups now (seen ++ p :: rest) p lg e) as Ho.
    destruct (physicsStep _ _ _ _ _ _ _ _ _ _ _) as [[r lg1] e1].
    cbn [fst snd] in Hr, Ho.
    rewrite (full_no_claim _ ups p) in Ho;
      [| exact Hfull | apply updatePlane_gate].
    specialize (IH (seen ++ [set_position (p_position r) p]) lg1 e1).
    rewrite Ho in IH. destruct (IH Hfull) as [IH1 IH2].
    destruct (physicsPass _ _ _ _ _ _ _ _ _ _ _) as [[res lg2] e2].
    cbn [fst snd] in *. split; [exact IH1 |].
    constructor; [| exact IH2]. exists (seen ++ p :: rest). now rewrite <- Hr.
Qed.

(** Two aircraft ask for the last free gate in the same tick: the first
    of the array takes it, and every later one that asks goes to
    WAITING_FOR_GATE. *)
Lemma contention ups now seen A rest lg e g :
  seeks A -> p_id A <> "" ->
  In g (gateList ups) ->
  JS.truthy (occupant (lg_occupancy lg) g) = false ->
  (forall k, In k (gateList ups) -> k <> g ->
             JS.truthy (occupant (lg_occupancy lg) k) = true) ->
  exists rA res',
    fst (fst (pass ups now seen (A :: rest) lg e)) = rA :: res' /\
    p_id rA = p_id A /\
    p_targetGateId rA = Some g /\ p_status rA = TAXI_IN /\
    Forall2 (fun B rB => seeks B ->
               p_id rB = p_id B /\
               p_status rB = WAITING_FOR_GATE /\
               p_targetGateId rB = p_targetGateId B) rest res'.
Proof.
  intros HA Hid Hg Hfree Hothers.
  destruct (getFreeGate (lg_occupancy lg) ups) as [h |] eqn:Hh.
  2:{ rewrite getFreeGate_None in Hh. rewrite (Hh g Hg) in Hfree.
      discriminate. }
  assert (h = g) as -> by (eapply getFreeGate_only; eauto).
  cbn [physicsPass]. unfold bind, ret.
  pose proof (physicsStep_plane Math_atan2 Math_cos Math_sin uuidv4
                numberToString ups now (seen ++ A :: rest) A lg e) as Hr.
  pose proof (physicsStep_occupancy Math_atan2 Math_cos Math_sin uuidv4
                numberToString ups now (seen ++ A :: rest) A lg e) as Ho.
  destruct (physicsStep _ _ _ _ _ _ _ _ _ _ _) as [[r lg1] e1].
  cbn [fst snd] in Hr, Ho.
  pose proof (seeker_step ups A (seen ++ A :: rest) (lg_occupancy lg) HA)
    as HrA. cbv zeta in HrA. rewrite Hh, <- Hr in HrA.
  destruct HrA as (HgA & HsA & _).
  destruct (updatePlane_gate ups A (seen ++ A :: rest) (lg_occupancy lg))
    as (HidA & _). rewrite <- Hr in HidA.
  destruct (gateList_node ups g Hg) as (Htr & _).
  assert (Hgne : g <> "") by (intros ->; discriminate Htr).
  assert (Hocc : lg_occupancy lg1 = <[g := Some (p_id r)]> (lg_occupancy lg)).
  { rewrite Ho, <- Hr. unfold claimGate. rewrite HgA, Htr.
    destruct HA as (_ & HtA & _).
    destruct (p_targetGateId A) as [k |]; cbn; [| reflexivity].
    destruct (String.eqb_spec g k) as [<- | _]; [| reflexivity].
    cbn in HtA. apply String.eqb_neq in Hgne. now rewrite Hgne in HtA. }
  assert (Hfull : getFreeGate (lg_occupancy lg1) ups = None).
  { apply getFreeGate_None. intros k Hk. rewrite Hocc. unfold occupant.
    destruct (decide (k = g)) as [-> | Hne].
    - rewrite lookup_insert_eq. apply truthy_id. congruence.
    - rewrite lookup_insert_ne by congruence. now apply Hothers. }
  destruct (physicsPass_full ups now
              (seen ++ [set_position (p_position r) A]) rest lg1 e1 Hfull)
    as [_ Hrest].
  destruct (physicsPass _ _ _ _ _ _ _ _ _ _ _) as [[res lg2] e2].
  cbn [fst snd] in *. exists r, res. repeat split; auto.
  eapply Forall2_impl; [exact Hrest |].
  intros B rB (view & ->) HB.
  pose proof (seeker_step ups B view (lg_occupancy lg1) HB) as H.
  cbv zeta in H. rewrite Hfull in H. destruct H as [H1 H2].
  split; [| now split]. apply updatePlane_gate.
Qed.


Lemma initialState_gates b : GateInvariant (initialState b).
Proof. repeat split; constructor. Qed.

(** The commands of the player touch neither the aircraft nor the
    schedule. *)
Lemma commands_keep_gates id type s e :
  GateInvariant s ->
  GateInvariant (fst (purchaseUpgrade uuidv4 id s e)) /\
  GateInvariant (fst (influenceEconomy uuidv4 type s e)).
Proof.
  intros Hinv. unfold purchaseUpgrade, influenceEconomy, purchaseUpdater,
    influenceUpdater, addLog, bind, ret, uuid. split.
  - destruct (find _ _) as [u |]; [| exact Hinv].
    destruct (_ || _); exact Hinv.
  - destruct (JS.lt _ _); exact Hinv.
Qed.

(** C1: a tick keeps the invariant of the gates, from a state that has it
    (the initial state does).  So, when the tick ends, no two aircraft of
    the list reference the same gate, and the occupancy that is committed
    names, at every referenced gate, the aircraft that references it.
    When an aircraft asks for a gate while a single gate [g] is free, it
    is given [g], and every aircraft that asks later in the same pass, in
    array order, goes to WAITING_FOR_GATE without a gate. *)
Theorem gate_exclusive :
  (forall ref prev e s' e',
      GateInvariant prev -> tick' ref prev e = Some (s', e') ->
      GateInvariant s' /\ distinctGates (planes s') /\
      Bound (gateOccupancy s') (planes s')) /\
  (forall ups now seen A rest lg e g,
      seeks A -> p_id A <> "" ->
      In g (gateList ups) ->
      JS.truthy (occupant (lg_occupancy lg) g) = false ->
      (forall k, In k (gateList ups) -> k <> g ->
                 JS.truthy (occupant (lg_occupancy lg) k) = true) ->
      exists rA res',
        fst (fst (pass ups now seen (A :: rest) lg e)) = rA :: res' /\
        p_id rA = p_id A /\
        p_targetGateId rA = Some g /\ p_status rA = TAXI_IN /\
        Forall2 (fun B rB => seeks B ->
                   p_id rB = p_id B /\
                   p_status rB = WAITING_FOR_GATE /\
                   p_targetGateId rB = p_targetGateId B) rest res').
Proof using uuid_nonempty.
  split.
  - intros ref prev e s' e' Hinv Htick. eapply tick_gates; eauto.
  - intros ups now seen A rest lg e g. apply contention.
Qed.


End GateFacts.

(* ===================================================================== *)
(** * The schedule fits the gates *)
(* ===================================================================== *)

Section CapacityFacts.
Variable Math_atan2 : float -> float -> float.
Variables Math_cos Math_sin : float -> float.
Variable Math_random : nat -> float.
Variable uuidv4 : nat -> string.
Variable numberToString : float -> string.

Lemma FlightStatus_eqb_eq a b : FlightStatus_eqb a b = true <-> a = b.
Proof. destruct a, b; cbn; split; congruence. Qed.

Lemma demoted_refl l : demoted l l.
Proof. induction l; constructor; auto. Qed.

Lemma demoted_trans l k m : demoted l k -> demoted k m -> demoted l m.
Proof.
  intros H. revert m. induction H as [| x y l k (Ht & Hs) _ IH];
    intros m Hm; inversion Hm as [| ? z ? m' (Ht' & Hs') Hm']; subst;
    constructor.
  - split; [congruence | auto].
  - now apply IH.
Qed.

Lemma demoted_overlap l l' t :
  demoted l l' ->
  overlapAt (scheduledWindows l') t <= overlapAt (scheduledWindows l) t.
Proof.
  unfold scheduledWindows, windowsOf, overlapAt, isScheduled.
  induction 1 as [| f f' l l' (Ht & Hs) _ IH]; [reflexivity |].
  cbn [List.filter].
  destruct (FlightStatus_eqb (f_status f') Scheduled) eqn:E'.
  - apply FlightStatus_eqb_eq in E'. rewrite (Hs E'). cbn.
    rewrite Ht. destruct (covers _ t); cbn [length]; lia.
  - destruct (FlightStatus_eqb (f_status f) Scheduled); [| exact IH].
    cbn. destruct (covers _ t); cbn [length]; lia.
Qed.

Lemma demoted_capacity gates l l' :
  demoted l l' -> withinCapacity gates (scheduledWindows l) ->
  withinCapacity gates (scheduledWindows l').
Proof.
  intros Hd Hc t. pose proof (demoted_overlap l l' t Hd). specialize (Hc t). lia.
Qed.

Lemma admitFlight_demoted c now sched :
  demoted sched (map (admitFlight c now) sched).
Proof.
  induction sched as [| f l IH]; constructor; [| exact IH].
  unfold admitFlight, isDue.
  destruct (FlightStatus_eqb (f_status f) Scheduled) eqn:E; cbn [andb].
  - apply FlightStatus_eqb_eq in E. now destruct (_ <=? _).
  - auto.
Qed.

Lemma markFirst_demoted id sched :
  demoted sched (markFirst id FlightDeparted sched).
Proof.
  induction sched as [| f l IH]; cbn; [constructor |].
  destruct (String.eqb (f_id f) id).
  - constructor; [| apply demoted_refl]. cbn. split; [reflexivity | discriminate].
  - constructor; auto.
Qed.

Lemma physicsStep_demoted ups now view p lg e :
  demoted (lg_schedule lg)
    (lg_schedule (snd (fst
      (physicsStep Math_atan2 Math_cos Math_sin uuidv4 numberToString
                   ups now view p lg e)))).
Proof.
  unfold physicsStep, bind, ret, logEntry, uuid.
  repeat match goal with |- context [if ?c then _ else _] => destruct c end;
    cbn; first [apply markFirst_demoted | apply demoted_refl].
Qed.

Lemma physicsPass_demoted ups now seen todo lg e :
  demoted (lg_schedule lg)
    (lg_schedule (snd (fst
      (physicsPass Math_atan2 Math_cos Math_sin uuidv4 numberToString
                   ups now seen todo lg e)))).
Proof.
  revert seen lg e. induction todo as [| p rest IH]; intros seen lg e;
    [apply demoted_refl |].
  cbn [physicsPass]. unfold bind, ret.
  pose proof (physicsStep_demoted ups now (seen ++ p :: rest) p lg e) as Hs.
  destruct (physicsStep _ _ _ _ _ _ _ _ _ _ _) as [[r lg1] e1].
  cbn [fst snd] in Hs.
  specialize (IH (seen ++ [set_position (p_position r) p]) lg1 e1).
  destruct (physicsPass _ _ _ _ _ _ _ _ _ _ _) as [[res lg2] e2].
  cbn [fst snd] in *. eapply demoted_trans; eauto.
Qed.

Lemma pending_overlap now sched t :
  overlapAt (committedOf sched now) t <= overlapAt (scheduledWindows sched) t.
Proof.
  unfold committedOf, scheduledWindows, windowsOf, overlapAt, isPending,
    isScheduled.
  induction sched as [| f l IH]; [reflexivity |]. cbn [List.filter].
  destruct (FlightStatus_eqb (f_status f) Scheduled); cbn [andb]; [| exact IH].
  destruct (now <? f_scheduledTime f); cbn;
    destruct (covers _ t); cbn [length]; lia.
Qed.

Lemma filter_all {A} (f : A -> bool) l :
  Forall (fun x => f x = true) l -> List.filter f l = l.
Proof.
  induction 1 as [| x l Hx _ IH]; [reflexivity |]. cbn. now rewrite Hx, IH.
Qed.

(** With [stateRef] up to date, the top-up of the schedule keeps its
    invariant. *)
Lemma schedulerStep_capacity s now sched' e e' :
  ScheduleInvariant s ->
  schedulerStep Math_sin Math_random uuidv4 s now (demand (economy s))
                (schedule s) e = Some (sched', e') ->
  withinCapacity (totalGates (upgrades s)) (scheduledWindows sched').
Proof.
  intros Hinv. unfold schedulerStep.
  destruct (_ || _); [| now intros [= <- <-]].
  destruct (generateSchedule _ _ _ _ _ _ _ _) as [[batch e1] |] eqn:Hgen;
    [| discriminate].
  intros [= <- <-].
  assert (Hc : withinCapacity (totalGates (upgrades s))
                 (committedOf (schedule s) now)).
  { intros t. pose proof (pending_overlap now (schedule s) t).
    specialize (Hinv t). unfold ScheduleInvariant in *. lia. }
  destruct (generateSchedule_sound _ _ _ _ _ _ _ _ _ _ Hc Hgen)
    as (Hcap & Hst & _).
  intros t. specialize (Hcap t).
  unfold scheduledWindows.
  rewrite filter_all.
  - rewrite (overlapAt_perm t _ (windowsOf (List.filter (isPending now) (schedule s) ++ batch))).
    + unfold windowsOf. rewrite map_app. exact Hcap.
    + unfold windowsOf. apply Permutation_map, sortBy_perm.
  - eapply Permutation_Forall; [symmetry; apply sortBy_perm |].
    apply Forall_app. split.
    + apply List.Forall_forall. intros f Hf. apply filter_In in Hf as [_ Hf].
      unfold isPending in Hf. now apply andb_true_iff in Hf as [Hf _].
    + eapply Forall_impl; [exact Hst |]. intros f Hf. unfold isScheduled.
      now rewrite Hf.
Qed.

(** A tick keeps the invariant of the schedule, when the state that the
    scheduler reads through [stateRef] is the state that is updated. *)
Lemma tick_capacity s e s' e' :
  ScheduleInvariant s ->
  tick Math_atan2 Math_cos Math_sin Math_random uuidv4 numberToString
       s s e = Some (s', e') ->
  ScheduleInvariant s'.
Proof.
  intros Hinv. unfold tick.
  destruct (schedulerStep _ _ _ _ _ _ _ _) as [[sched e0] |] eqn:Hstep;
    [| discriminate].
  pose proof (schedulerStep_capacity s _ _ _ _ Hinv Hstep) as Hcap.
  intros [= Hrun]. revert Hrun. unfold runTick. cbn [planes schedule gameTime economy logs gateOccupancy upgrades].
  pose proof (processSpawns_spec Math_random uuidv4
                (congested (planes s)) (gameTime s + 1) sched
                (economy s) (logs s) [] e0) as Hspec.
  destruct (processSpawns _ _ _ _ _ _ _) as [[sched1 [[eco lgs] newPlanes]] e1].
  destruct Hspec as (-> & _).
  match goal with |- context [physicsPass _ _ _ _ _ ?u ?n ?sn ?td ?lg ?e2] =>
    pose proof (physicsPass_demoted u n sn td lg e2) as Hd end.
  destruct (physicsPass _ _ _ _ _ _ _ _ _ _ _) as [[mapped lg] e2].
  cbn [fst snd lg_schedule] in Hd. intros [= <- <-].
  unfold ScheduleInvariant. cbn [upgrades schedule].
  eapply demoted_capacity; [| exact Hcap].
  eapply demoted_trans; [apply admitFlight_demoted | exact Hd].
Qed.

Lemma initialState_capacity b : ScheduleInvariant (initialState b).
Proof. intros t. cbn. discriminate. Qed.

(** The gate count never decreases when an upgrade is bought. *)
Lemma purchase_capacity id s :
  ScheduleInvariant s -> ScheduleInvariant (fst (purchaseUpdater id s)).
Proof.
  intros Hinv. unfold purchaseUpdater.
  destruct (find _ _) as [u |]; [| exact Hinv].
  destruct (_ || _); [exact Hinv |].
  unfold ScheduleInvariant in *. cbn [fst upgrades schedule set_economy set_upgrades].
  intros t. specialize (Hinv t).
  assert (totalGates (upgrades s) <=
          totalGates (map (fun u0 => if String.eqb (u_id u0) id
                                     then set_u_unlocked true u0 else u0)
                          (upgrades s))); [| lia].
  unfold totalGates.
  destruct (hasTerminalExp (upgrades s)) eqn:E.
  - assert (hasTerminalExp (map (fun u0 => if String.eqb (u_id u0) id
                                     then set_u_unlocked true u0 else u0)
                          (upgrades s)) = true) as ->; [| lia].
    unfold hasTerminalExp in *. apply existsb_exists in E as (x & Hx & Hx').
    apply existsb_exists. eexists. split; [apply in_map, Hx |].
    destruct (String.eqb (u_id x) id); cbn; [| exact Hx'].
    apply andb_true_iff in Hx' as [-> _]. reflexivity.
  - match goal with |- context [if ?c then _ else _] => destruct c end; lia.
Qed.
(** C2: a batch of [generateSchedule].  The windows of the pending
    flights that the scheduler reads are within the gate count (3, or 4
    once the terminal expansion is unlocked); then, with the 450-tick
    window of every flight of the batch added, the number of windows that
    hold a gate at one instant is still within the gate count, at every
    instant.  A window that ends at an instant does not hold a gate at
    that instant.  The condition on the pending flights is an invariant
    of the game: the initial state has it, and a tick that reads the
    state it updates keeps it. *)
Theorem generateSchedule_capacity :
  (forall refSchedule refUpgrades currentTime baseDemand e e' batch,
      withinCapacity (totalGates refUpgrades)
                     (committedOf refSchedule currentTime) ->
      generateSchedule Math_sin Math_random uuidv4 refSchedule refUpgrades
                       currentTime baseDemand e = Some (batch, e') ->
      withinCapacity (totalGates refUpgrades)
        (committedOf refSchedule currentTime ++ windowsOf batch) /\
      Forall (fun f => f_status f = Scheduled) batch) /\
  (forall refUpgrades, totalGates refUpgrades
                       = if hasTerminalExp refUpgrades then 4 else 3) /\
  (forall apiKey, ScheduleInvariant (initialState apiKey)) /\
  (forall s e s' e',
      ScheduleInvariant s ->
      tick Math_atan2 Math_cos Math_sin Math_random uuidv4 numberToString
           s s e = Some (s', e') ->
      ScheduleInvariant s').
Proof.
  split; [| split; [reflexivity | split]].
  - intros refSchedule refUpgrades currentTime baseDemand e e' batch Hc Hgen.
    destruct (generateSchedule_sound _ _ _ _ _ _ _ _ _ _ Hc Hgen)
      as (H1 & H2 & _). now split.
  - exact initialState_capacity.
  - exact tick_capacity.
Qed.

End CapacityFacts.

(** The tie of the sweep: a window that ends at 450 and one that begins at
    450 count for one gate around a candidate that meets both. *)
Example tie_rule :
  maxConcurrency [mkInterval 0 450; mkInterval 450 900] 200 650 = 2 /\
  overlapAt [mkInterval 0 450; mkInterval 450 900; mkInterval 200 650] 450 = 2.
Proof. split; reflexivity. Qed.

(* ===================================================================== *)
(** * The theorems at work on the sample data *)
(* ===================================================================== *)

Lemma holdShort_release_witness :
  p_status (samplePhysics (holdingPlane "h") [holdingPlane "h"] fullOccupancy) = TAKEOFF /\
  p_status (samplePhysics (holdingPlane "h") [holdingPlane "h"; landingPlane "l"] fullOccupancy) = HOLD_SHORT.
Proof.
  destruct (holdShort_release sampleAtan2 sampleCos sampleSin INITIAL_UPGRADES
              [holdingPlane "h"] fullOccupancy) as [_ H1].
  destruct (holdShort_release sampleAtan2 sampleCos sampleSin INITIAL_UPGRADES
              [holdingPlane "h"; landingPlane "l"] fullOccupancy) as [_ H2].
  split.
  - apply (H1 (holdingPlane "h") eq_refl).
    + intros (q & [<- | []] & Hne & _). now apply Hne.
    + intros (q & [<- | []] & Hst & _). discriminate Hst.
  - apply (H2 (holdingPlane "h") eq_refl).
    left. exists (landingPlane "l"). split; [right; left; reflexivity |].
    split; [discriminate | right; left; reflexivity].
Defined.

Lemma departed_removed_witness :
  exists s' e', sampleTick departingState departingState noEntropy = Some (s', e') /\
    planes s' = [] /\ Forall (fun p => p_status p <> DEPARTED) (planes s').
Proof.
  eexists. eexists. split; [vm_compute; reflexivity |].
  split; [reflexivity |].
  eapply (proj1 (departed_removed sampleAtan2 sampleCos sampleSin
                   sampleRandom sampleUuid sampleShow
                   departingState departingState noEntropy)).
  vm_compute. reflexivity.
Defined.

Lemma generateSchedule_capacity_witness :
  exists batch e',
    generateSchedule sampleSin sampleRandom sampleUuid [] INITIAL_UPGRADES 1 40 noEntropy
      = Some (batch, e') /\
    map f_scheduledTime batch = [241; 241; 241] /\
    withinCapacity 3 (windowsOf batch).
Proof.
  eexists. eexists. split; [vm_compute; reflexivity |].
  split; [reflexivity |].
  destruct (generateSchedule_capacity sampleAtan2 sampleCos sampleSin
              sampleRandom sampleUuid sampleShow) as (Hbatch & _).
  refine (proj1 (Hbatch [] INITIAL_UPGRADES 1 40%float noEntropy _ _ _ _)).
  - intros t. vm_compute. discriminate.
  - vm_compute. reflexivity.
Defined.



Lemma sampleUuid_nonempty n : sampleUuid n <> "".
Proof. unfold sampleUuid. cbn. discriminate. Qed.

Lemma contendedState_gates : GateInvariant contendedState.
Proof.
  split; [| split; [| split]]; cbn.
  - apply (bool_decide_unpack _). vm_compute. exact I.
  - repeat constructor; intros H; first [reflexivity | discriminate H].
  - repeat constructor; discriminate.
  - repeat constructor; discriminate.
Qed.

Lemma gate_exclusive_witness :
  (exists s' e',
     sampleTick contendedState contendedState noEntropy = Some (s', e') /\
     map p_targetGateId (planes s')
       = [Some "gate_1"; Some "gate_2"; Some "gate_3"; None] /\
     map p_status (planes s') = [PARKED; TAXI_IN; PARKED; WAITING_FOR_GATE] /\
     distinctGates (planes s')) /\
  (exists rA rB,
     fst (fst (samplePass INITIAL_UPGRADES 101 [] [seekerPlane "s1"; seekerPlane "s2"]
                 (mkLedger [] INITIAL_ECONOMY [] oneFreeOccupancy) noEntropy))
       = [rA; rB] /\
     p_targetGateId rA = Some "gate_2" /\ p_status rB = WAITING_FOR_GATE).
Proof.
  pose proof (gate_exclusive sampleAtan2 sampleCos sampleSin sampleRandom sampleUuid
                sampleShow sampleUuid_nonempty) as [Hinv Hcont].
  split.
  - eexists. eexists. split; [vm_compute; reflexivity |].
    split; [reflexivity |]. split; [reflexivity |].
    eapply (Hinv contendedState contendedState noEntropy);
      [exact contendedState_gates | vm_compute; reflexivity].
  - destruct (Hcont INITIAL_UPGRADES 101 [] (seekerPlane "s1") [seekerPlane "s2"]
                (mkLedger [] INITIAL_ECONOMY [] oneFreeOccupancy) noEntropy "gate_2")
      as (rA & res' & Hres & _ & HgA & _ & Hrest).
    + repeat split; vm_compute; reflexivity.
    + discriminate.
    + right; left; reflexivity.
    + reflexivity.
    + intros k [<- | [<- | [<- | []]]] Hk; try reflexivity. now elim Hk.
    + inversion Hrest as [| B rB l l' HB Hnil]; subst.
      inversion Hnil; subst.
      exists rA, rB. split; [exact Hres |]. split; [exact HgA |].
      apply HB. repeat split; vm_compute; reflexivity.
Defined.


(** The aircraft at gate 1 leaves in the first tick: the aircraft that
    waits is still waiting when that tick ends, since the gate was taken
    in its snapshot, and it is assigned gate 1 in the next tick. *)
Example waiting_two_ticks :
  match twoTicks leavingState noEntropy with
  | Some (s1, s2) =>
      map p_status (planes s1) = [TAXI_OUT; PARKED; PARKED; WAITING_FOR_GATE] /\
      map p_targetGateId (planes s1)
        = [None; Some "gate_2"; Some "gate_3"; None] /\
      map p_status (planes s2) = [TAXI_OUT; PARKED; PARKED; TAXI_IN] /\
      map p_targetGateId (planes s2)
        = [None; Some "gate_2"; Some "gate_3"; Some "gate_1"]
  | None => False
  end.
Proof. vm_compute. repeat split. Qed.
